(** * The node manager of the elastic-training master

    A shallow embedding of [dlrover/python/master/node/node_manager.py]:
    the node index, event ingestion ([_process_event]), callback fan-out
    ([_process_node_events]), the relaunch policy ([_should_relaunch]),
    list reconciliation ([_process_list_nodes]) and the public operations
    [stop], [all_critical_node_completed] and [remove_training_nodes].

    Python dictionaries are finite maps; the mutable [Node] objects stored
    in them are identified by their slot [(node_type, node_id)] of the
    index, so that an in-place mutation of a node is an update of that
    slot.  A [KeyError] escaping a function is the result [None]. *)

From stdpp Require Import gmap strings list fin_maps.

Local Open Scope Z_scope.

(** ** Constants of [dlrover.python.common.constants] *)

Inductive NodeType := PS | CHIEF | WORKER | EVALUATOR.

Inductive NodeStatus := INITIAL | PENDING | RUNNING | SUCCEEDED | FAILED | DELETED.

Inductive NodeExitReason := NO_REASON | KILLED | OOM | FATAL_ERROR | UNKNOWN_ERROR.

Inductive NodeEventType := ADDED | MODIFIED | DELETED_EVENT.

#[global] Instance NodeType_eq_dec : EqDecision NodeType.
Proof. solve_decision. Defined.

#[global] Instance NodeStatus_eq_dec : EqDecision NodeStatus.
Proof. solve_decision. Defined.

#[global] Instance NodeExitReason_eq_dec : EqDecision NodeExitReason.
Proof. solve_decision. Defined.

#[global] Instance NodeEventType_eq_dec : EqDecision NodeEventType.
Proof. solve_decision. Defined.

Definition NodeType_code (t : NodeType) : nat :=
  match t with PS => 0 | CHIEF => 1 | WORKER => 2 | EVALUATOR => 3 end%nat.

Definition NodeType_of_code (n : nat) : NodeType :=
  match n with
  | O => PS
  | S O => CHIEF
  | S (S O) => WORKER
  | _ => EVALUATOR
  end.

#[global] Instance NodeType_countable : Countable NodeType :=
  inj_countable' NodeType_code NodeType_of_code
    (λ t, match t with
          | PS => eq_refl | CHIEF => eq_refl | WORKER => eq_refl | EVALUATOR => eq_refl
          end).

(** ** The node record ([Node] of [base_watcher.py]) *)

Record NodeResource := { cpu : Z; memory : Z }.

Module Node.

Record t := mk {
  type : NodeType;
  id : Z;
  name : string;
  status : NodeStatus;
  exit_reason : NodeExitReason;
  used_resource : NodeResource;
  create_time : Z;
  start_time : Z;
  relaunch_count : Z;
  max_relaunch_count : Z;
  critical : bool;
  relaunchable : bool;
  is_released : bool;
  is_recovered_oom : bool
}.

(** Attribute assignments [node.f = v]. *)

Definition set_status (s : NodeStatus) (n : t) : t :=
  mk (type n) (id n) (name n) s (exit_reason n) (used_resource n)
     (create_time n) (start_time n) (relaunch_count n) (max_relaunch_count n)
     (critical n) (relaunchable n) (is_released n) (is_recovered_oom n).

Definition set_critical (b : bool) (n : t) : t :=
  mk (type n) (id n) (name n) (status n) (exit_reason n) (used_resource n)
     (create_time n) (start_time n) (relaunch_count n) (max_relaunch_count n)
     b (relaunchable n) (is_released n) (is_recovered_oom n).

Definition set_relaunchable (b : bool) (n : t) : t :=
  mk (type n) (id n) (name n) (status n) (exit_reason n) (used_resource n)
     (create_time n) (start_time n) (relaunch_count n) (max_relaunch_count n)
     (critical n) b (is_released n) (is_recovered_oom n).

Definition set_is_released (b : bool) (n : t) : t :=
  mk (type n) (id n) (name n) (status n) (exit_reason n) (used_resource n)
     (create_time n) (start_time n) (relaunch_count n) (max_relaunch_count n)
     (critical n) (relaunchable n) b (is_recovered_oom n).

Definition set_is_recovered_oom (b : bool) (n : t) : t :=
  mk (type n) (id n) (name n) (status n) (exit_reason n) (used_resource n)
     (create_time n) (start_time n) (relaunch_count n) (max_relaunch_count n)
     (critical n) (relaunchable n) (is_released n) b.

(** Modelled from the spec: the methods of the [Node] class, whose file
    ([watcher/base_watcher.py]) is not part of the sources at hand.  The
    spec lists [update_info(name,create_time,start_time)],
    [update_status(s)], [set_exit_reason(r)] and [inc_relaunch_count()];
    each one overwrites, respectively advances, the attributes it names. *)

Definition update_info (nm : string) (start create : Z) (n : t) : t :=
  mk (type n) (id n) nm (status n) (exit_reason n) (used_resource n)
     create start (relaunch_count n) (max_relaunch_count n)
     (critical n) (relaunchable n) (is_released n) (is_recovered_oom n).

Definition update_status (s : NodeStatus) (n : t) : t := set_status s n.

Definition set_exit_reason (r : NodeExitReason) (n : t) : t :=
  mk (type n) (id n) (name n) (status n) r (used_resource n)
     (create_time n) (start_time n) (relaunch_count n) (max_relaunch_count n)
     (critical n) (relaunchable n) (is_released n) (is_recovered_oom n).

Definition inc_relaunch_count (n : t) : t :=
  mk (type n) (id n) (name n) (status n) (exit_reason n) (used_resource n)
     (create_time n) (start_time n) (relaunch_count n + 1) (max_relaunch_count n)
     (critical n) (relaunchable n) (is_released n) (is_recovered_oom n).

(** Modelled from the spec: [update_resource_usage(cpu,mem)] of the same
    class, which overwrites the used resources of the node. *)
Definition update_resource_usage (used_cpu used_memory : Z) (n : t) : t :=
  mk (type n) (id n) (name n) (status n) (exit_reason n)
     {| cpu := used_cpu; memory := used_memory |}
     (create_time n) (start_time n) (relaunch_count n) (max_relaunch_count n)
     (critical n) (relaunchable n) (is_released n) (is_recovered_oom n).

End Node.

Abbreviation Node := Node.t.

(** ** Events and state flows *)

Record NodeEvent := { event_type : NodeEventType; node : Node }.

(** The attributes of [NodeStateFlow] ([status_flow.py]) that the node
    manager reads. *)
Record NodeStateFlow := {
  from_status : NodeStatus;
  to_status : NodeStatus;
  should_relaunch : bool
}.

(** ** Subscribers and observable effects

    A registered [NodeEventCallback] is named by a handle.  Following the
    subscriber contract, a callback observes the node and does not write
    to the index; what the manager does to the outside is recorded as a
    trace of effects. *)

Definition NodeEventCallback := nat.

Inductive CallbackMethod :=
  on_node_started | on_node_succeeded | on_node_failed | on_node_deleted.

(** The identity of a node object: its slot in [_job_nodes]. *)
Definition NodeRef : Type := NodeType * Z.

Inductive Effect :=
| Call (cb : NodeEventCallback) (method : CallbackMethod) (ref : NodeRef) (arg : Node)
| RelaunchPod (ref : NodeRef) (arg : Node).

Definition is_call_on (ref : NodeRef) (e : Effect) : Prop :=
  match e with
  | Call _ _ r _ => r = ref
  | RelaunchPod _ _ => False
  end.

Definition is_call (e : Effect) : Prop :=
  match e with
  | Call _ _ _ _ => True
  | RelaunchPod _ _ => False
  end.

(** ** The manager's state *)

Record NodeManager := {
  _job_nodes : gmap NodeType (gmap Z Node);
  _node_event_callbacks : list NodeEventCallback;
  _relaunch_pod : bool;
  _wait_pending_relaunch : bool;
  _pending_relaunch_count : Z;
  _stop_monitor : bool
}.

Definition with_job_nodes (nodes : gmap NodeType (gmap Z Node)) (self : NodeManager)
  : NodeManager :=
  {| _job_nodes := nodes;
     _node_event_callbacks := _node_event_callbacks self;
     _relaunch_pod := _relaunch_pod self;
     _wait_pending_relaunch := _wait_pending_relaunch self;
     _pending_relaunch_count := _pending_relaunch_count self;
     _stop_monitor := _stop_monitor self |}.

(** [self._job_nodes[node_type][node_id]] *)
Definition get_node (self : NodeManager) (ref : NodeRef) : option Node :=
  _job_nodes self !! ref.1 ≫= λ nodes, nodes !! ref.2.

(** In-place mutation of the node object stored at [ref]. *)
Definition put_node (ref : NodeRef) (n : Node)
    (nodes : gmap NodeType (gmap Z Node)) : gmap NodeType (gmap Z Node) :=
  match nodes !! ref.1 with
  | Some group => <[ref.1 := <[ref.2 := n]> group]> nodes
  | None => nodes
  end.

(** The class [ResourcePlan] is used by the manager only through its list
    [removed_nodes] of pod names. *)
Record ResourcePlan := { removed_nodes : list string }.

(** How a run of the monitor thread stands after the input it was given:
    it has left its loop by [break], a [KeyError] has escaped from the
    reconciliation and ended the thread (the effects are those of the
    rounds before), or it is about to ask the watcher for the next list. *)
Inductive Monitor :=
| Stopped (self : NodeManager) (effects : list Effect)
| Raised (effects : list Effect)
| Listing (self : NodeManager) (effects : list Effect).

Definition monitor_effects (run : Monitor) : list Effect :=
  match run with
  | Stopped _ effects | Raised effects | Listing _ effects => effects
  end.

Definition after_effects (earlier : list Effect) (run : Monitor) : Monitor :=
  match run with
  | Stopped self effects => Stopped self (earlier ++ effects)
  | Raised effects => Raised (earlier ++ effects)
  | Listing self effects => Listing self (earlier ++ effects)
  end.

(** ** The operations of [NodeManager] *)

Section Manager.

(** [NodeResourceLimit.MAX_MEMORY] and [get_node_state_flow] are imported
    from modules outside this file; the development is parametric in
    them. *)
Variable MAX_MEMORY : Z.
Variable get_node_state_flow :
  NodeStatus → NodeEventType → NodeStatus → option NodeStateFlow.

(** [_process_node_events]: every registered callback is invoked, in the
    order of [_node_event_callbacks], on the method chosen by the flow. *)
Definition _process_node_events (self : NodeManager)
    (status_change_flow : NodeStateFlow) (ref : NodeRef) (node : Node) : list Effect :=
  let invoke method := (λ callback, Call callback method ref node)
                         <$> _node_event_callbacks self in
  if bool_decide (to_status status_change_flow = RUNNING) then
    invoke on_node_started
  else if bool_decide (to_status status_change_flow = SUCCEEDED) then
    invoke on_node_succeeded
  else if bool_decide (to_status status_change_flow = FAILED) then
    invoke on_node_failed
  else if bool_decide (from_status status_change_flow ≠ FAILED)
          && bool_decide (from_status status_change_flow ≠ SUCCEEDED)
          && bool_decide (to_status status_change_flow = DELETED) then
    invoke on_node_deleted
  else [].

(** [_should_relaunch]: the verdict and the node as the call leaves it. *)
Definition _should_relaunch (self : NodeManager) (node : Node)
    (status_change_flow : NodeStateFlow) : bool * Node :=
  let should_relaunch :=
    should_relaunch status_change_flow && _relaunch_pod self && Node.relaunchable node in
  let '(should_relaunch, node) :=
    if should_relaunch then
      if bool_decide (Node.exit_reason node = FATAL_ERROR) then (false, node)
      else if bool_decide (Node.exit_reason node = OOM) then
        let mem := memory (Node.used_resource node) in
        if bool_decide (mem > MAX_MEMORY) then (false, node)
        else if bool_decide (Node.relaunch_count node >= Node.max_relaunch_count node)
        then (false, node)
        else (should_relaunch, Node.set_is_recovered_oom true node)
      else if bool_decide (Node.exit_reason node ≠ KILLED) then
        if bool_decide (Node.relaunch_count node > Node.max_relaunch_count node)
        then (false, node)
        else (should_relaunch, node)
      else (should_relaunch, node)
    else (should_relaunch, node) in
  if should_relaunch then (should_relaunch, Node.inc_relaunch_count node)
  else (should_relaunch, node).

(** [_relaunch_typed_pod] only logs; the request is kept as an effect. *)
Definition _relaunch_typed_pod (ref : NodeRef) (node : Node) : list Effect :=
  [RelaunchPod ref node].

(** [_process_event].  The lookup of the node raises [KeyError] before
    anything is written. *)
Definition _process_event (self : NodeManager) (event : NodeEvent)
  : option (NodeManager * list Effect) :=
  let node_type := Node.type (node event) in
  let node_id := Node.id (node event) in
  cur_node ← get_node self (node_type, node_id);
  let cur_node :=
    Node.update_info (Node.name (node event)) (Node.start_time (node event))
                     (Node.create_time (node event)) cur_node in
  let new_status := Node.status (node event) in
  let old_status := Node.status cur_node in
  let status_change_flow := get_node_state_flow old_status (event_type event) new_status in
  let cur_node := Node.update_status new_status cur_node in
  match status_change_flow with
  | None =>
      Some (with_job_nodes (put_node (node_type, node_id) cur_node (_job_nodes self)) self, [])
  | Some flow =>
      if bool_decide (from_status flow = SUCCEEDED) then
        Some (with_job_nodes (put_node (node_type, node_id) cur_node (_job_nodes self)) self, [])
      else
        let cur_node := Node.set_exit_reason (Node.exit_reason (node event)) cur_node in
        let calls := _process_node_events self flow (node_type, node_id) cur_node in
        let '(should_relaunch, cur_node) := _should_relaunch self cur_node flow in
        let pending :=
          if should_relaunch && _wait_pending_relaunch self
          then _pending_relaunch_count self + 1
          else _pending_relaunch_count self in
        Some ({| _job_nodes := put_node (node_type, node_id) cur_node (_job_nodes self);
                 _node_event_callbacks := _node_event_callbacks self;
                 _relaunch_pod := _relaunch_pod self;
                 _wait_pending_relaunch := _wait_pending_relaunch self;
                 _pending_relaunch_count := pending;
                 _stop_monitor := _stop_monitor self |},
              calls ++ (if should_relaunch
                        then _relaunch_typed_pod (node_type, node_id) cur_node
                        else []))
  end.

(** The body of the watch loop of [_monitor_nodes] over the events a
    stream delivers: an exception of [_process_event] is logged and the
    event is skipped. *)
Fixpoint watch_events (self : NodeManager) (events : list NodeEvent)
  : NodeManager * list Effect :=
  match events with
  | [] => (self, [])
  | event :: rest =>
      match _process_event self event with
      | Some (self', effects) =>
          let '(final, later) := watch_events self' rest in
          (final, effects ++ later)
      | None => watch_events self rest
      end
  end.

(** [_process_list_nodes], first loop: record the listed ids by type and
    replay every listed node as a mock event. *)
Fixpoint list_nodes_events (self : NodeManager) (exist_pods : gmap NodeType (list Z))
    (nodes : list Node)
  : option (NodeManager * gmap NodeType (list Z) * list Effect) :=
  match nodes with
  | [] => Some (self, exist_pods, [])
  | node :: rest =>
      ids ← exist_pods !! Node.type node;
      let exist_pods := <[Node.type node := ids ++ [Node.id node]]> exist_pods in
      let type :=
        if bool_decide (Node.status node = DELETED) then DELETED_EVENT else MODIFIED in
      '(self', effects) ← _process_event self {| event_type := type; node := node |};
      '(final, exist_pods', later) ← list_nodes_events self' exist_pods rest;
      Some (final, exist_pods', effects ++ later)
  end.

(** [_process_list_nodes], second loop.  [exist_pods] has the keys of
    [_job_nodes] (lemma [list_nodes_events_exist_pods] below), so the
    lookup [exist_pods[node_type]] cannot fail. *)
Definition release_missing (exist_pods : gmap NodeType (list Z))
    (nodes : gmap NodeType (gmap Z Node)) : gmap NodeType (gmap Z Node) :=
  map_imap (λ node_type group,
    Some (map_imap (λ node_id node,
      Some (if bool_decide (Node.status node ≠ INITIAL)
               && negb (Node.is_released node)
               && bool_decide (node_id ∉ default [] (exist_pods !! node_type))
            then Node.set_is_released true node
            else node)) group)) nodes.

Definition _process_list_nodes (self : NodeManager) (nodes : list Node)
  : option (NodeManager * list Effect) :=
  let exist_pods : gmap NodeType (list Z) := (λ _, []) <$> _job_nodes self in
  '(self', exist_pods, effects) ← list_nodes_events self exist_pods nodes;
  Some (with_job_nodes (release_missing exist_pods (_job_nodes self')) self', effects).

(** [add_node_event_callback] *)
Definition add_node_event_callback (self : NodeManager)
    (pod_event_callback : NodeEventCallback) : NodeManager :=
  {| _job_nodes := _job_nodes self;
     _node_event_callbacks := _node_event_callbacks self ++ [pod_event_callback];
     _relaunch_pod := _relaunch_pod self;
     _wait_pending_relaunch := _wait_pending_relaunch self;
     _pending_relaunch_count := _pending_relaunch_count self;
     _stop_monitor := _stop_monitor self |}.

(** [stop] *)
Definition stop (self : NodeManager) : NodeManager :=
  {| _job_nodes :=
       (λ group : gmap Z Node,
          (λ node, Node.set_is_released true (Node.set_critical false node)) <$> group)
         <$> _job_nodes self;
     _node_event_callbacks := _node_event_callbacks self;
     _relaunch_pod := false;
     _wait_pending_relaunch := _wait_pending_relaunch self;
     _pending_relaunch_count := _pending_relaunch_count self;
     _stop_monitor := true |}.

(** [all_critical_node_completed] *)
Definition is_alive_critical (node : Node) : bool :=
  Node.critical node && bool_decide (Node.status node ∈ [INITIAL; PENDING; RUNNING]).

Definition alive_critical_nodes (self : NodeManager) : list Z :=
  group ← map_to_list (_job_nodes self);
  entry ← map_to_list group.2;
  if is_alive_critical entry.2 then [entry.1] else [].

Definition all_critical_node_completed (self : NodeManager) : bool :=
  bool_decide (alive_critical_nodes self = []).

(** [remove_training_nodes].  The loop mutates the node objects of the
    WORKER and PS groups and fills the local [plan]; the function has no
    [return] statement, so its value is Python's [None]. *)
Definition is_removable (node : Node) : bool :=
  bool_decide (Node.status node ∈ [RUNNING; PENDING]) && negb (Node.is_released node).

Definition remove_node (node : Node) : Node :=
  if is_removable node then
    Node.set_status DELETED
      (Node.set_is_released true
         (Node.set_relaunchable false (Node.set_critical false node)))
  else node.

Definition removed_names (group : gmap Z Node) : list string :=
  Node.name <$> filter (λ node, is_removable node = true) (map_to_list group).*2.

Definition remove_training_nodes_loop (self : NodeManager)
  : option (NodeManager * ResourcePlan) :=
  workers ← _job_nodes self !! WORKER;
  servers ← _job_nodes self !! PS;
  let plan := {| removed_nodes := removed_names workers ++ removed_names servers |} in
  Some (with_job_nodes
          (<[PS := remove_node <$> servers]>
             (<[WORKER := remove_node <$> workers]> (_job_nodes self))) self,
        plan).

Definition remove_training_nodes (self : NodeManager) : option (NodeManager * unit) :=
  '(self', _) ← remove_training_nodes_loop self;
  Some (self', tt).

(** [update_node_resource_usage] *)
Definition update_node_resource_usage (self : NodeManager) (node_type : NodeType)
    (node_id : Z) (used_cpu used_memory : Z) : option NodeManager :=
  node ← get_node self (node_type, node_id);
  Some (with_job_nodes
          (put_node (node_type, node_id)
                    (Node.update_resource_usage used_cpu used_memory node)
                    (_job_nodes self)) self).

(** [_monitor_nodes].  A round of the loop takes the list the watcher
    returns and the events its stream delivers before it ends or fails
    (both lead to the next round).  [_process_list_nodes] is called outside
    the [try], so its [KeyError] ends the thread; the stop flag is read
    once a round, after the reconciliation. *)
Fixpoint _monitor_nodes (self : NodeManager)
    (rounds : list (list Node * list NodeEvent)) : Monitor :=
  match rounds with
  | [] => Listing self []
  | (nodes, events) :: later =>
      match _process_list_nodes self nodes with
      | None => Raised []
      | Some (listed, reconciled) =>
          if _stop_monitor listed then Stopped listed reconciled
          else
            let '(watched, processed) := watch_events listed events in
            after_effects (reconciled ++ processed) (_monitor_nodes watched later)
      end
  end.

End Manager.

(** ** Construction of the manager

    [create_node_manager] reads the job arguments, fills a
    [JobResourceConfig] and calls the constructor, which clamps the two
    relaunch budgets.  Of [JobResourceConfig] only the calls of
    [add_node_group_resource] are kept, in their order; the strategies are
    those the function tells apart. *)

Definition _MAX_POD_RELAUNCH_COUNT : Z := 5.

Inductive DistributionStrategy := PARAMETER_SERVER | CUSTOM | OTHER_STRATEGY.

#[global] Instance DistributionStrategy_eq_dec : EqDecision DistributionStrategy.
Proof. solve_decision. Defined.

Record NodeGroupResource := {
  group_type : NodeType;
  group_count : Z;
  group_resource : string;
  group_priority : string
}.

Record JobArgs := {
  job_name : string;
  namespace : string;
  distribution_strategy : DistributionStrategy;
  relaunch_on_worker_failure : Z;
  ps_is_critical : bool;
  ps_relaunch_max_num : Z;
  use_ddp : bool;
  num_workers : Z;
  worker_resource_request : string;
  worker_pod_priority : string;
  num_ps_pods : Z;
  ps_resource_request : string;
  ps_pod_priority : string;
  num_evaluators : Z;
  evaluator_resource_request : string;
  evaluator_pod_priority : string;
  num_tf_master : Z;
  tf_master_resource_request : string;
  tf_master_pod_priority : string
}.

(** The attributes the constructor derives from its arguments. *)
Record ManagerSettings := {
  _job_resource : list NodeGroupResource;
  _relaunch_on_worker_failure : Z;
  _ps_is_critical : bool;
  _ps_relaunch_max_num : Z;
  _use_ddp : bool;
  wait_pending_relaunch : bool
}.

(** [NodeManager.__init__] *)
Definition NodeManager_init (job_resource : list NodeGroupResource)
    (relaunch_on_worker_failure : Z) (ps_is_critical wait_pending_relaunch : bool)
    (ps_relaunch_max_num : Z) (use_ddp : bool) : ManagerSettings :=
  {| _job_resource := job_resource;
     _relaunch_on_worker_failure :=
       Z.min relaunch_on_worker_failure _MAX_POD_RELAUNCH_COUNT;
     _ps_is_critical := ps_is_critical;
     _ps_relaunch_max_num := Z.min ps_relaunch_max_num _MAX_POD_RELAUNCH_COUNT;
     _use_ddp := use_ddp;
     wait_pending_relaunch := wait_pending_relaunch |}.

(** [create_node_manager] *)
Definition create_node_manager (args : JobArgs) : ManagerSettings :=
  let relaunch_on_worker_failure :=
    if bool_decide (distribution_strategy args ≠ PARAMETER_SERVER)
       && bool_decide (distribution_strategy args ≠ CUSTOM)
    then 0
    else relaunch_on_worker_failure args in
  let evaluator_pod_priority :=
    if bool_decide (evaluator_pod_priority args = "low")
    then evaluator_pod_priority args
    else "high" in
  let job_resource :=
    [ {| group_type := WORKER; group_count := num_workers args;
         group_resource := worker_resource_request args;
         group_priority := worker_pod_priority args |};
      {| group_type := PS; group_count := num_ps_pods args;
         group_resource := ps_resource_request args;
         group_priority := ps_pod_priority args |};
      {| group_type := EVALUATOR; group_count := num_evaluators args;
         group_resource := evaluator_resource_request args;
         group_priority := evaluator_pod_priority |};
      {| group_type := CHIEF; group_count := num_tf_master args;
         group_resource := tf_master_resource_request args;
         group_priority := tf_master_pod_priority args |} ] in
  let wait_pending_relaunch := bool_decide (distribution_strategy args = CUSTOM) in
  NodeManager_init job_resource relaunch_on_worker_failure (ps_is_critical args)
                   wait_pending_relaunch (ps_relaunch_max_num args) (use_ddp args).

(** ** The relaunch policy as the specification words it

    Section 4.D of the specification gives the policy as five checks in
    order; [policy_verdict] follows that text, and [policy_node] is the
    node it leaves behind. *)

Definition policy_verdict (max_memory : Z) (relaunch_enabled : bool)
    (node : Node) (flow : NodeStateFlow) : bool :=
  if negb (should_relaunch flow && relaunch_enabled && Node.relaunchable node) then false
  else
    match Node.exit_reason node with
    | FATAL_ERROR => false
    | OOM =>
        if memory (Node.used_resource node) >? max_memory then false
        else if Node.relaunch_count node >=? Node.max_relaunch_count node then false
        else true
    | KILLED => true
    | NO_REASON | UNKNOWN_ERROR =>
        if Node.relaunch_count node >? Node.max_relaunch_count node then false else true
    end.

Definition policy_node (max_memory : Z) (relaunch_enabled : bool)
    (node : Node) (flow : NodeStateFlow) : Node :=
  if policy_verdict max_memory relaunch_enabled node flow then
    Node.inc_relaunch_count
      (match Node.exit_reason node with
       | OOM => Node.set_is_recovered_oom true node
       | _ => node
       end)
  else node.

(** ** A concrete state-flow table and sample jobs *)

(** Modelled from the spec: [get_node_state_flow] of [status_flow.py],
    which is not part of the sources at hand.  The table holds the rows
    the specification names: a DELETED event moves INITIAL, PENDING and
    RUNNING nodes to DELETED with a relaunch and SUCCEEDED and FAILED nodes
    to DELETED without one; a MODIFIED event with the failed phase moves a
    RUNNING node to FAILED with a relaunch; an event with the success phase
    moves a node that has not finished to SUCCEEDED without a relaunch.
    The reported status has to be the target of the row. *)
Definition notable_state_flow (old_status : NodeStatus) (event : NodeEventType)
    (new_status : NodeStatus) : option NodeStateFlow :=
  match event, new_status with
  | DELETED_EVENT, DELETED =>
      match old_status with
      | INITIAL | PENDING | RUNNING =>
          Some {| from_status := old_status; to_status := DELETED; should_relaunch := true |}
      | SUCCEEDED | FAILED =>
          Some {| from_status := old_status; to_status := DELETED; should_relaunch := false |}
      | DELETED => None
      end
  | MODIFIED, FAILED =>
      match old_status with
      | RUNNING =>
          Some {| from_status := RUNNING; to_status := FAILED; should_relaunch := true |}
      | _ => None
      end
  | (ADDED | MODIFIED), SUCCEEDED =>
      match old_status with
      | INITIAL | PENDING | RUNNING =>
          Some {| from_status := old_status; to_status := SUCCEEDED; should_relaunch := false |}
      | _ => None
      end
  | _, _ => None
  end.


(** The memory ceiling of the specification's scenarios. *)
Definition sample_max_memory : Z := 65536.

Definition sample_node (type : NodeType) (id : Z) (name : string)
    (status : NodeStatus) : Node :=
  {| Node.type := type; Node.id := id; Node.name := name; Node.status := status;
     Node.exit_reason := NO_REASON;
     Node.used_resource := {| cpu := 1; memory := 8192 |};
     Node.create_time := 0; Node.start_time := 0;
     Node.relaunch_count := 0; Node.max_relaunch_count := 0;
     Node.critical := true; Node.relaunchable := true;
     Node.is_released := false; Node.is_recovered_oom := false |}.

(** What a watcher reports about a pod. *)
Definition report (type : NodeType) (id : Z) (name : string)
    (status : NodeStatus) (reason : NodeExitReason) : Node :=
  Node.set_exit_reason reason (sample_node type id name status).

Definition sample_manager (nodes : gmap NodeType (gmap Z Node)) : NodeManager :=
  {| _job_nodes := nodes;
     _node_event_callbacks := [0%nat; 1%nat];
     _relaunch_pod := true;
     _wait_pending_relaunch := false;
     _pending_relaunch_count := 0;
     _stop_monitor := false |}.

(** A job with one chief that has succeeded. *)
Definition chief_job : NodeManager :=
  sample_manager {[ CHIEF := {[ 0 := sample_node CHIEF 0 "chief-0" SUCCEEDED ]} ]}.

(** A job with one running worker. *)
Definition worker_job : NodeManager :=
  sample_manager {[ WORKER := {[ 0 := sample_node WORKER 0 "worker-0" RUNNING ]} ]}.

(** Scenario 6 of the specification, with one more running worker that
    reconciliation has already released. *)
Definition training_job : NodeManager :=
  sample_manager
    {[ WORKER := {[ 0 := sample_node WORKER 0 "worker-0" RUNNING;
                    1 := sample_node WORKER 1 "worker-1" RUNNING;
                    2 := sample_node WORKER 2 "worker-2" SUCCEEDED;
                    3 := Node.set_is_released true (sample_node WORKER 3 "worker-3" RUNNING) ]};
       PS := {[ 0 := sample_node PS 0 "ps-0" PENDING ]} ]}.

(** The node stored at [ref] after a call, with the effects of the call. *)
Definition observe (ref : NodeRef) (result : option (NodeManager * list Effect))
  : option (Node * list Effect) :=
  '(self, effects) ← result;
  node ← get_node self ref;
  Some (node, effects).



(** Watch events used in the examples. *)
Definition chief_running_again : NodeEvent :=
  {| event_type := MODIFIED; node := report CHIEF 0 "chief-0" RUNNING NO_REASON |}.

Definition worker_killed : NodeEvent :=
  {| event_type := MODIFIED; node := report WORKER 0 "worker-0" FAILED KILLED |}.

Definition worker_failed : NodeEvent :=
  {| event_type := MODIFIED; node := report WORKER 0 "worker-0" FAILED UNKNOWN_ERROR |}.

Definition worker_running : NodeEvent :=
  {| event_type := MODIFIED; node := report WORKER 0 "worker-0" RUNNING NO_REASON |}.

Definition worker_succeeded : NodeEvent :=
  {| event_type := MODIFIED; node := report WORKER 0 "worker-0" SUCCEEDED NO_REASON |}.

Definition worker_renamed_pending : NodeEvent :=
  {| event_type := ADDED; node := report WORKER 0 "worker-0-copy" PENDING NO_REASON |}.

(** A list snapshot of [training_job] from which the parameter server
    has disappeared. *)
Definition snapshot_without_ps : list Node :=
  [ report WORKER 0 "worker-0" RUNNING NO_REASON;
    report WORKER 1 "worker-1" RUNNING NO_REASON;
    report WORKER 2 "worker-2" SUCCEEDED NO_REASON ].

Definition reconciled : NodeManager * list Effect :=
  default (training_job, [])
    (_process_list_nodes sample_max_memory notable_state_flow training_job
                         snapshot_without_ps).

(** The running worker after it has been reported killed. *)
Definition killed_once : NodeManager * list Effect :=
  default (worker_job, [])
    (_process_event sample_max_memory notable_state_flow worker_job worker_killed).

(** A job whose only worker is not relaunchable. *)
Definition frozen_job : NodeManager :=
  sample_manager
    {[ WORKER := {[ 0 := Node.set_relaunchable false
                           (sample_node WORKER 0 "worker-0" RUNNING) ]} ]}.

(** The training job after [remove_training_nodes], directly and after
    [stop]. *)
Definition removed : NodeManager * ResourcePlan :=
  default (training_job, {| removed_nodes := [] |})
    (remove_training_nodes_loop training_job).

Definition removed_after_stop : NodeManager * ResourcePlan :=
  default (training_job, {| removed_nodes := [] |})
    (remove_training_nodes_loop (stop training_job)).

(** Scenario 2 of the specification: the worker is recorded with 70000 MB
    of memory and then fails with OOM. *)
Definition worker_oom : NodeEvent :=
  {| event_type := MODIFIED; node := report WORKER 0 "worker-0" FAILED OOM |}.

Definition over_limit : NodeManager :=
  default worker_job (update_node_resource_usage worker_job WORKER 0 1 70000).

Definition oom_over_limit : NodeManager * list Effect :=
  default (over_limit, [])
    (_process_event sample_max_memory notable_state_flow over_limit worker_oom).

(** One round of the monitor on the job with one worker. *)
Definition one_round : list (list Node * list NodeEvent) :=
  [ ([report WORKER 0 "worker-0" RUNNING NO_REASON], [worker_killed; chief_running_again]) ].

(** ** What one event does to the node it names

    [_process_event] reads the node at [event_ref], rewrites it and stores
    it back; [node_step] is that rewriting on the node alone, with the
    effects and the relaunch verdict (lemma [_process_event_node_step]). *)

Definition event_ref (event : NodeEvent) : NodeRef :=
  (Node.type (node event), Node.id (node event)).

Definition refresh (event : NodeEvent) (cur_node : Node) : Node :=
  Node.update_status (Node.status (node event))
    (Node.update_info (Node.name (node event)) (Node.start_time (node event))
                      (Node.create_time (node event)) cur_node).

Definition node_step (MAX_MEMORY : Z)
    (get_node_state_flow : NodeStatus → NodeEventType → NodeStatus → option NodeStateFlow)
    (self : NodeManager) (event : NodeEvent) (cur_node : Node)
  : Node * list Effect * bool :=
  match get_node_state_flow (Node.status cur_node) (event_type event)
                            (Node.status (node event)) with
  | None => (refresh event cur_node, [], false)
  | Some flow =>
      if bool_decide (from_status flow = SUCCEEDED) then (refresh event cur_node, [], false)
      else
        let reported :=
          Node.set_exit_reason (Node.exit_reason (node event)) (refresh event cur_node) in
        let verdict := _should_relaunch MAX_MEMORY self reported flow in
        (verdict.2,
         _process_node_events self flow (event_ref event) reported
           ++ (if verdict.1 then _relaunch_typed_pod (event_ref event) verdict.2 else []),
         verdict.1)
  end.

Definition store_step (self : NodeManager) (ref : NodeRef)
    (step : Node * list Effect * bool) : NodeManager * list Effect :=
  ({| _job_nodes := put_node ref step.1.1 (_job_nodes self);
      _node_event_callbacks := _node_event_callbacks self;
      _relaunch_pod := _relaunch_pod self;
      _wait_pending_relaunch := _wait_pending_relaunch self;
      _pending_relaunch_count :=
        if step.2 && _wait_pending_relaunch self
        then _pending_relaunch_count self + 1
        else _pending_relaunch_count self;
      _stop_monitor := _stop_monitor self |},
   step.1.2).

(** The hard cap of invariant (I2), for every node of the index. *)
Definition within_cap (self : NodeManager) : Prop :=
  ∀ ref node, get_node self ref = Some node →
    Node.relaunch_count node <= Node.max_relaunch_count node + 1.

(** Every event leaves the flags [is_released] and [critical] and the
    bound [max_relaunch_count] of every node as they are, and no event
    lowers a relaunch count. *)
Definition keeps_flags (old new : Node) : Prop :=
  Node.is_released new = Node.is_released old
  ∧ Node.critical new = Node.critical old
  ∧ Node.max_relaunch_count new = Node.max_relaunch_count old
  ∧ Node.relaunch_count old <= Node.relaunch_count new.

(** The ids a list snapshot reports for one node type. *)
Definition listed_ids (nodes : list Node) (node_type : NodeType) : list Z :=
  Node.id <$> filter (λ node, Node.type node = node_type) nodes.

(** The mock event [_process_list_nodes] makes of a listed node. *)
Definition mock_event (node : Node) : NodeEvent :=
  {| event_type :=
       if bool_decide (Node.status node = DELETED) then DELETED_EVENT else MODIFIED;
     node := node |}.

(** The node an effect is about. *)
Definition effect_ref (e : Effect) : NodeRef :=
  match e with
  | Call _ _ ref _ => ref
  | RelaunchPod ref _ => ref
  end.

(** The number of relaunch requests in a trace: all of them, and those
    for one node. *)
Definition is_relaunch_of (ref : NodeRef) (e : Effect) : bool :=
  match e with
  | Call _ _ _ _ => false
  | RelaunchPod ref' _ => bool_decide (ref' = ref)
  end.

Definition is_relaunch (e : Effect) : bool :=
  match e with
  | Call _ _ _ _ => false
  | RelaunchPod _ _ => true
  end.

Definition relaunch_requests (ref : NodeRef) (effects : list Effect) : Z :=
  Z.of_nat (length (filter (λ e, is_relaunch_of ref e = true) effects)).

Definition all_relaunch_requests (effects : list Effect) : Z :=
  Z.of_nat (length (filter (λ e, is_relaunch e = true) effects)).

(** Whether the index has the node an event names. *)
Definition is_known (self : NodeManager) (event : NodeEvent) : Prop :=
  is_Some (get_node self (event_ref event)).

#[global] Instance is_known_dec (self : NodeManager) (event : NodeEvent) :
  Decision (is_known self event).
Proof. unfold is_known. apply _. Defined.

(** Every pod of a list snapshot is a node of the index. *)
Definition listed_in_index (self : NodeManager) (nodes : list Node) : Prop :=
  ∀ node, node ∈ nodes → is_Some (get_node self (Node.type node, Node.id node)).

(** What the relaunch policy asks of the reported exit reason and of the
    node: no fatal error; for OOM, memory within the limit and a count
    below the bound; for other reasons than KILLED, a count not above it. *)
Definition relaunch_allowed (MAX_MEMORY : Z) (reason : NodeExitReason) (node : Node)
  : Prop :=
  reason ≠ FATAL_ERROR
  ∧ (reason = OOM →
     memory (Node.used_resource node) <= MAX_MEMORY
     ∧ Node.relaunch_count node < Node.max_relaunch_count node)
  ∧ (reason ≠ OOM → reason ≠ KILLED →
     Node.relaunch_count node <= Node.max_relaunch_count node).

(** ** Properties of the callback dispatch and of the relaunch policy *)

Definition invoke_all (self : NodeManager) (method : CallbackMethod)
    (ref : NodeRef) (node : Node) : list Effect :=
  (λ callback, Call callback method ref node) <$> _node_event_callbacks self.

(** C7: the subscribers are called on the method chosen by the target of
    the matched flow: [on_node_started] for RUNNING, [on_node_succeeded]
    for SUCCEEDED, [on_node_failed] for FAILED, and [on_node_deleted] for
    DELETED exactly when the flow does not start from FAILED or SUCCEEDED;
    the calls follow the order of registration, and a callback registered
    later is called last. *)
Theorem C7_callback_dispatch (self : NodeManager) (from : NodeStatus) (relaunch : bool)
    (ref : NodeRef) (node : Node) (later : NodeEventCallback) :
  let flow to := {| from_status := from; to_status := to; should_relaunch := relaunch |} in
  _process_node_events self (flow RUNNING) ref node
    = invoke_all self on_node_started ref node
  ∧ _process_node_events self (flow SUCCEEDED) ref node
    = invoke_all self on_node_succeeded ref node
  ∧ _process_node_events self (flow FAILED) ref node
    = invoke_all self on_node_failed ref node
  ∧ _process_node_events self (flow DELETED) ref node
    = (if bool_decide (from ∈ [FAILED; SUCCEEDED]) then []
       else invoke_all self on_node_deleted ref node)
  ∧ _process_node_events self (flow INITIAL) ref node = []
  ∧ _process_node_events self (flow PENDING) ref node = []
  ∧ ∀ method, invoke_all (add_node_event_callback self later) method ref node
              = invoke_all self method ref node ++ [Call later method ref node].
Proof.
  intros flow. repeat split; try reflexivity;
    try (unfold _process_node_events, invoke_all; simpl; by destruct from).
  intros method. unfold invoke_all, add_node_event_callback. simpl.
  by rewrite fmap_app.
Qed.

(** C2: [_should_relaunch] returns the verdict of the specification's
    five-step procedure and leaves the node that procedure describes: the
    recovered-OOM mark in the OOM branch that relaunches, and a relaunch
    count advanced by one exactly when the verdict is true. *)
Theorem C2_should_relaunch_refines_policy (MAX_MEMORY : Z) (self : NodeManager)
    (node : Node) (flow : NodeStateFlow) :
  let result := _should_relaunch MAX_MEMORY self node flow in
  result.1 = policy_verdict MAX_MEMORY (_relaunch_pod self) node flow
  ∧ result.2 = policy_node MAX_MEMORY (_relaunch_pod self) node flow
  ∧ Node.relaunch_count result.2
    = Node.relaunch_count node + (if result.1 then 1 else 0)
  ∧ (Node.relaunch_count result.2 = Node.relaunch_count node + 1 ↔ result.1 = true).
Proof.
  unfold _should_relaunch, policy_node, policy_verdict.
  destruct (should_relaunch flow), (_relaunch_pod self), (Node.relaunchable node);
    simpl; try (repeat split; (lia || done || (intros; lia))).
  all: destruct (Node.exit_reason node) eqn:Hreason; simpl.
  all: repeat case_bool_decide; try congruence.
  all: repeat match goal with
       | |- context [?a >? ?b] => destruct (Z.gtb_spec a b); try lia
       | |- context [?a >=? ?b] => destruct (Z.geb_spec a b); try lia
       end.
  all: simpl; rewrite ?Hreason; repeat split; try done; try lia; intros; lia.
Qed.

(** ** Completion of the critical nodes *)

Lemma bind_nil_all {A B} (f : A → list B) (l : list A) :
  (∀ x, x ∈ l → f x = []) → l ≫= f = [].
Proof.
  induction l as [|x l IH]; intros Hall; [done|].
  rewrite bind_cons, (Hall x) by left. simpl.
  apply IH. intros y Hy. apply Hall. by right.
Qed.

Lemma bind_nil_inv {A B} (f : A → list B) (l : list A) (x : A) :
  l ≫= f = [] → x ∈ l → f x = [].
Proof.
  induction l as [|y l IH]; intros Hnil Hx; [by apply elem_of_nil in Hx|].
  rewrite bind_cons in Hnil. apply app_eq_nil in Hnil as [Hy Hl].
  apply elem_of_cons in Hx as [->|Hx]; [done|]. by apply IH.
Qed.

(** The predicate reports completion iff no node of the index is both
    critical and in INITIAL, PENDING or RUNNING. *)
Lemma all_critical_node_completed_iff (self : NodeManager) :
  all_critical_node_completed self = true
  ↔ ∀ ref node, get_node self ref = Some node → is_alive_critical node = false.
Proof.
  unfold all_critical_node_completed, alive_critical_nodes, get_node.
  rewrite bool_decide_eq_true. split.
  - intros Hnil [node_type node_id] node Hget. simpl in Hget.
    destruct (_job_nodes self !! node_type) as [group|] eqn:Hgroup; [|done].
    simpl in Hget.
    pose proof (bind_nil_inv _ _ (node_type, group) Hnil) as Hin. simpl in Hin.
    pose proof (bind_nil_inv _ _ (node_id, node)
                  (Hin ltac:(by apply elem_of_map_to_list))) as Hone.
    simpl in Hone.
    destruct (is_alive_critical node); [|done].
    by specialize (Hone ltac:(by apply elem_of_map_to_list)).
  - intros Hall. apply bind_nil_all. intros [node_type group] Hgroup.
    apply elem_of_map_to_list in Hgroup. simpl.
    apply bind_nil_all. intros [node_id node] Hnode.
    apply elem_of_map_to_list in Hnode. simpl.
    rewrite (Hall (node_type, node_id) node); [done|].
    simpl. by rewrite Hgroup.
Qed.

Lemma get_node_stop (self : NodeManager) (ref : NodeRef) :
  get_node (stop self) ref
  = (λ node, Node.set_is_released true (Node.set_critical false node))
      <$> get_node self ref.
Proof.
  unfold get_node, stop. simpl. rewrite lookup_fmap.
  destruct (_job_nodes self !! ref.1) as [group|]; [|done].
  simpl. by rewrite lookup_fmap.
Qed.

(** C10: once [stop] has returned, [all_critical_node_completed] answers
    true: [stop] clears [critical] on every node of the index, and the
    predicate only counts critical nodes. *)
Theorem C10_stop_completes_critical_nodes (self : NodeManager) :
  all_critical_node_completed (stop self) = true
  ∧ ∀ ref node, get_node (stop self) ref = Some node → Node.critical node = false.
Proof.
  assert (Hcrit : ∀ ref node,
             get_node (stop self) ref = Some node → Node.critical node = false).
  { intros ref node. rewrite get_node_stop.
    destruct (get_node self ref); [|done]. simpl. by intros [= <-]. }
  split; [|done].
  apply all_critical_node_completed_iff. intros ref node Hget.
  unfold is_alive_critical. by rewrite (Hcrit ref node Hget).
Qed.

(** ** Event processing *)

Section Events.

Variable MAX_MEMORY : Z.
Variable get_node_state_flow :
  NodeStatus → NodeEventType → NodeStatus → option NodeStateFlow.

Local Abbreviation process_event := (_process_event MAX_MEMORY get_node_state_flow).
Local Abbreviation step := (node_step MAX_MEMORY get_node_state_flow).
Local Abbreviation watch := (watch_events MAX_MEMORY get_node_state_flow).

Lemma _process_event_node_step (self : NodeManager) (event : NodeEvent) :
  process_event self event
  = cur_node ← get_node self (event_ref event);
    Some (store_step self (event_ref event) (step self event cur_node)).
Proof.
  unfold _process_event, event_ref.
  destruct (get_node self _) as [cur_node|]; [|done]. simpl.
  unfold node_step, store_step. simpl.
  destruct (get_node_state_flow _ _ _) as [flow|]; [|done].
  case_bool_decide; [done|].
  by destruct (_should_relaunch _ _ _ _) as [verdict final].
Qed.

Lemma get_node_put_node (self self' : NodeManager) (ref ref' : NodeRef)
    (cur new : Node) :
  _job_nodes self' = put_node ref new (_job_nodes self) →
  get_node self ref = Some cur →
  get_node self' ref' = if decide (ref = ref') then Some new else get_node self ref'.
Proof.
  destruct ref as [node_type node_id], ref' as [node_type' node_id'].
  unfold get_node, put_node. simpl. intros -> Hcur.
  destruct (_job_nodes self !! node_type) as [group|] eqn:Hgroup; [|done].
  simpl in Hcur. case_decide as Href.
  - injection Href as <- <-. rewrite lookup_insert_eq. simpl.
    by rewrite lookup_insert_eq.
  - destruct (decide (node_type = node_type')) as [<-|Htype].
    + rewrite lookup_insert_eq, Hgroup. simpl.
      rewrite lookup_insert_ne; [done|]. congruence.
    + by rewrite lookup_insert_ne.
Qed.

Lemma _process_event_Some (self self' : NodeManager) (event : NodeEvent)
    (effects : list Effect) :
  process_event self event = Some (self', effects) →
  ∃ cur_node, get_node self (event_ref event) = Some cur_node
    ∧ (self', effects) = store_step self (event_ref event) (step self event cur_node).
Proof.
  rewrite _process_event_node_step.
  destruct (get_node self _) as [cur_node|]; [|done]. simpl.
  intros [= <- <-]. by exists cur_node.
Qed.

Lemma get_node_store_step (self : NodeManager) (ref ref' : NodeRef) (cur : Node)
    (result : Node * list Effect * bool) :
  get_node self ref = Some cur →
  get_node (store_step self ref result).1 ref'
  = if decide (ref = ref') then Some result.1.1 else get_node self ref'.
Proof. intros Hcur. by eapply get_node_put_node. Qed.

(** *** The node after one step *)

Ltac step_cases :=
  unfold node_step, _should_relaunch, refresh;
  repeat match goal with
    | |- context [match get_node_state_flow ?a ?b ?c with _ => _ end] =>
        destruct (get_node_state_flow a b c) as [?flow|] eqn:?Hflow
    | |- context [bool_decide ?P] => destruct (bool_decide_reflect P)
    | |- context [should_relaunch ?f && _] => destruct (should_relaunch f) eqn:?Hsr
    | |- context [_relaunch_pod ?s && _] => destruct (_relaunch_pod s) eqn:?Hrp
    | |- context [if Node.relaunchable ?n then _ else _] =>
        destruct (Node.relaunchable n) eqn:?Hrl
    | _ => progress simpl in *
    end.

Lemma node_step_frame (self : NodeManager) (event : NodeEvent) (cur : Node) :
  let new := (step self event cur).1.1 in
  Node.type new = Node.type cur
  ∧ Node.id new = Node.id cur
  ∧ Node.used_resource new = Node.used_resource cur
  ∧ Node.max_relaunch_count new = Node.max_relaunch_count cur
  ∧ Node.critical new = Node.critical cur
  ∧ Node.relaunchable new = Node.relaunchable cur
  ∧ Node.is_released new = Node.is_released cur.
Proof. step_cases; done. Qed.

Lemma node_step_refreshed (self : NodeManager) (event : NodeEvent) (cur : Node) :
  let new := (step self event cur).1.1 in
  Node.status new = Node.status (node event)
  ∧ Node.name new = Node.name (node event)
  ∧ Node.start_time new = Node.start_time (node event)
  ∧ Node.create_time new = Node.create_time (node event).
Proof. step_cases; done. Qed.

Lemma node_step_relaunch_count (self : NodeManager) (event : NodeEvent) (cur : Node) :
  let result := step self event cur in
  Node.relaunch_count result.1.1
  = Node.relaunch_count cur + (if result.2 then 1 else 0).
Proof. step_cases; lia. Qed.

Lemma node_step_effects (self : NodeManager) (event : NodeEvent) (cur : Node) :
  let result := step self event cur in
  Forall (λ e, is_call e → is_call_on (event_ref event) e) result.1.2
  ∧ (result.2 = false → Forall is_call result.1.2).
Proof.
  assert (Hcalls : ∀ flow node,
    Forall (λ e, is_call e ∧ is_call_on (event_ref event) e)
           (_process_node_events self flow (event_ref event) node)).
  { intros flow node. unfold _process_node_events.
    repeat case_bool_decide; simpl;
      repeat match goal with
        | |- context [if ?b then _ else _] => destruct b
        end;
      try apply Forall_nil_2; apply Forall_fmap, Forall_forall; by intros. }
  unfold node_step. simpl.
  destruct (get_node_state_flow _ _ _) as [flow|]; [|by split; intros; constructor].
  case_bool_decide; [by split; intros; constructor|]. simpl.
  split.
  - apply Forall_app. split.
    + eapply Forall_impl; [apply Hcalls|]. by intros e [_ ?].
    + destruct (_should_relaunch _ _ _ _).1; repeat constructor. by intros [].
  - intros ->. rewrite app_nil_r.
    eapply Forall_impl; [apply Hcalls|]. by intros e [? _].
Qed.

Lemma node_step_relaunch_disabled (self : NodeManager) (event : NodeEvent) (cur : Node) :
  _relaunch_pod self = false → (step self event cur).2 = false.
Proof. intros Hoff. step_cases; congruence. Qed.

Lemma node_step_unmatched (self : NodeManager) (event : NodeEvent) (cur : Node) :
  get_node_state_flow (Node.status cur) (event_type event) (Node.status (node event)) = None →
  step self event cur = (refresh event cur, [], false).
Proof. intros Hnone. unfold node_step. by rewrite Hnone. Qed.

Lemma node_step_capped (self : NodeManager) (event : NodeEvent) (cur : Node) :
  Node.exit_reason (node event) ≠ KILLED →
  Node.relaunch_count cur <= Node.max_relaunch_count cur + 1 →
  let new := (step self event cur).1.1 in
  Node.relaunch_count new <= Node.max_relaunch_count new + 1.
Proof. intros Hreason Hcap. step_cases; try lia; by try congruence. Qed.

(** *** One event on the index *)


Lemma _process_event_get_node (self self' : NodeManager) (event : NodeEvent)
    (effects : list Effect) :
  process_event self event = Some (self', effects) →
  ∃ cur, get_node self (event_ref event) = Some cur
    ∧ effects = (step self event cur).1.2
    ∧ (∀ ref, get_node self' ref
              = if decide (event_ref event = ref)
                then Some (step self event cur).1.1 else get_node self ref)
    ∧ _relaunch_pod self' = _relaunch_pod self
    ∧ _node_event_callbacks self' = _node_event_callbacks self.
Proof.
  intros Hevent. apply _process_event_Some in Hevent as (cur & Hcur & Hstore).
  exists cur.
  split; [done|]. inversion Hstore; subst. repeat split; try done.
  intros ref. by apply (get_node_store_step self _ ref cur).
Qed.

Lemma _process_event_is_Some (self : NodeManager) (event : NodeEvent) :
  is_Some (process_event self event) ↔ is_Some (get_node self (event_ref event)).
Proof.
  rewrite _process_event_node_step.
  destruct (get_node self _); simpl; split; intros [? ?]; by eauto.
Qed.

Lemma _process_event_keeps_flags (self self' : NodeManager) (event : NodeEvent)
    (effects : list Effect) (ref : NodeRef) (old : Node) :
  process_event self event = Some (self', effects) →
  get_node self ref = Some old →
  ∃ new, get_node self' ref = Some new ∧ keeps_flags old new.
Proof.
  intros Hevent Hold.
  apply _process_event_get_node in Hevent as (cur & Hcur & _ & Hget & _).
  rewrite Hget. case_decide as Href.
  - subst ref. rewrite Hcur in Hold. injection Hold as ->.
    eexists. split; [done|].
    pose proof (node_step_frame self event old) as (_ & _ & _ & ? & ? & _ & ?).
    pose proof (node_step_relaunch_count self event old) as Hcount.
    simpl in *. unfold keeps_flags. repeat split; try done.
    destruct (step self event old).2; lia.
  - exists old. unfold keeps_flags. repeat split; [done|lia].
Qed.

Lemma watch_events_keeps_flags (events : list NodeEvent) (self : NodeManager)
    (ref : NodeRef) (old : Node) :
  get_node self ref = Some old →
  ∃ new, get_node (watch self events).1 ref = Some new ∧ keeps_flags old new.
Proof.
  revert self old. induction events as [|event rest IH]; intros self old Hold; simpl.
  - exists old. unfold keeps_flags. repeat split; [done|lia].
  - destruct (process_event self event) as [[self' effects]|] eqn:Hevent;
      [|by apply IH].
    destruct (_process_event_keeps_flags _ _ _ _ _ _ Hevent Hold)
      as (mid & Hmid & ? & ? & ? & ?).
    destruct (IH self' mid Hmid) as (new & Hnew & ? & ? & ? & ?).
    destruct (watch self' rest) as [final later]. simpl in *.
    exists new. unfold keeps_flags. repeat split; try congruence. lia.
Qed.

(** With relaunching switched off, events only call subscribers and no
    relaunch count moves. *)
Lemma watch_events_relaunch_disabled (events : list NodeEvent) (self : NodeManager)
    (ref : NodeRef) (old : Node) :
  _relaunch_pod self = false →
  Forall is_call (watch self events).2
  ∧ (get_node self ref = Some old →
     ∃ new, get_node (watch self events).1 ref = Some new
            ∧ Node.relaunch_count new = Node.relaunch_count old).
Proof.
  revert self old. induction events as [|event rest IH]; intros self old Hoff; simpl.
  - split; [constructor|]. intros Hold. by exists old.
  - destruct (process_event self event) as [[self' effects]|] eqn:Hevent;
      [|by apply IH].
    destruct (_process_event_get_node _ _ _ _ Hevent)
      as (cur & Hcur & -> & Hget & Hpod & _).
    pose proof (node_step_relaunch_disabled self event cur Hoff) as Hverdict.
    pose proof (node_step_effects self event cur) as [_ Hcalls].
    pose proof (node_step_relaunch_count self event cur) as Hcount.
    simpl in Hcalls, Hcount. rewrite Hverdict in Hcount.
    assert (Hoff' : _relaunch_pod self' = false) by congruence.
    pose proof (IH self') as IH'.
    destruct (watch self' rest) as [final later]. simpl in IH' |- *. split.
    + apply Forall_app. split; [by apply Hcalls|]. by destruct (IH' old Hoff').
    + intros Hold.
      assert (∃ mid, get_node self' ref = Some mid
                     ∧ Node.relaunch_count mid = Node.relaunch_count old)
        as (mid & Hmid & Hsame).
      { rewrite Hget. case_decide as Href; [|by exists old].
        subst ref. rewrite Hcur in Hold. injection Hold as ->.
        eexists. split; [done|]. lia. }
      destruct (IH' mid Hoff') as [_ Hnext].
      destruct (Hnext Hmid) as (new & Hnew & Hcnt). exists new. split; [done|]. lia.
Qed.

Lemma _process_event_within_cap (self self' : NodeManager) (event : NodeEvent)
    (effects : list Effect) :
  Node.exit_reason (node event) ≠ KILLED →
  within_cap self →
  process_event self event = Some (self', effects) →
  within_cap self'.
Proof.
  intros Hreason Hcap Hevent ref new.
  apply _process_event_get_node in Hevent as (cur & Hcur & _ & Hget & _).
  rewrite Hget. case_decide; [|by apply Hcap].
  intros [= <-]. apply node_step_capped; [done|]. by apply (Hcap (event_ref event)).
Qed.

(** *** Claims about event processing *)

(** C3 (amended): if every node of the index is within the cap
    [relaunch_count <= max_relaunch_count + 1], it still is after any
    sequence of processed events none of which reports the exit reason
    KILLED. *)
Theorem C3_cap_kept_without_killed (self : NodeManager) (events : list NodeEvent) :
  Forall (λ event, Node.exit_reason (node event) ≠ KILLED) events →
  within_cap self →
  within_cap (watch self events).1.
Proof.
  revert self. induction events as [|event rest IH]; intros self Hreasons Hcap;
    simpl; [done|].
  apply Forall_cons in Hreasons as [Hreason Hrest].
  destruct (process_event self event) as [[self' effects]|] eqn:Hevent;
    [|by apply IH].
  pose proof (IH self' Hrest
                (_process_event_within_cap _ _ _ _ Hreason Hcap Hevent)) as Hfinal.
  by destruct (watch self' rest).
Qed.

(** C4 (amended): a released node stays released through any later
    events; after [stop] the events that follow request no relaunch, and
    every node stays released and non-critical with its relaunch count
    unchanged.  (Subscribers are still called: see the counterexample.) *)
Theorem C4_released_nodes_stay_released (self : NodeManager) (events : list NodeEvent) :
  (∀ ref old, get_node self ref = Some old → Node.is_released old = true →
     ∃ new, get_node (watch self events).1 ref = Some new
            ∧ Node.is_released new = true)
  ∧ Forall is_call (watch (stop self) events).2
  ∧ (∀ ref old, get_node self ref = Some old →
     ∃ new, get_node (watch (stop self) events).1 ref = Some new
            ∧ Node.is_released new = true
            ∧ Node.critical new = false
            ∧ Node.relaunch_count new = Node.relaunch_count old).
Proof.
  split; [|split].
  - intros ref old Hold Hreleased.
    destruct (watch_events_keeps_flags events self ref old Hold)
      as (new & Hnew & Hrel & _).
    exists new. split; [done|]. congruence.
  - by apply (watch_events_relaunch_disabled events (stop self)
                (PS, 0) (sample_node PS 0 "" INITIAL)).
  - intros ref old Hold.
    assert (Hstopped : get_node (stop self) ref
              = Some (Node.set_is_released true (Node.set_critical false old))).
    { by rewrite get_node_stop, Hold. }
    destruct (watch_events_keeps_flags events _ ref _ Hstopped)
      as (new & Hnew & Hrel & Hcrit & _).
    destruct (watch_events_relaunch_disabled events (stop self) ref
                (Node.set_is_released true (Node.set_critical false old)) eq_refl)
      as [_ Hcount].
    destruct (Hcount Hstopped) as (new' & Hnew' & Hsame).
    rewrite Hnew in Hnew'. injection Hnew' as <-.
    exists new. by repeat split.
Qed.

(** C8 (amended): when the state-flow lookup returns none, the event is
    processed without any effect (no callback, no relaunch); name, start
    time and creation time of the node are refreshed from the event, and
    the exit reason, the relaunch count, the resources and all flags of the
    node, every other node and the manager's counters stay as they were. *)
Theorem C8_unmatched_event_frame (self : NodeManager) (event : NodeEvent) (cur : Node) :
  get_node self (event_ref event) = Some cur →
  get_node_state_flow (Node.status cur) (event_type event) (Node.status (node event))
    = None →
  ∃ self' new,
    process_event self event = Some (self', [])
    ∧ get_node self' (event_ref event) = Some new
    ∧ (∀ s, Node.set_status s new
            = Node.set_status s
                (Node.update_info (Node.name (node event)) (Node.start_time (node event))
                                  (Node.create_time (node event)) cur))
    ∧ Node.exit_reason new = Node.exit_reason cur
    ∧ Node.relaunch_count new = Node.relaunch_count cur
    ∧ (∀ ref, ref ≠ event_ref event → get_node self' ref = get_node self ref)
    ∧ _pending_relaunch_count self' = _pending_relaunch_count self
    ∧ _relaunch_pod self' = _relaunch_pod self
    ∧ _node_event_callbacks self' = _node_event_callbacks self.
Proof.
  intros Hcur Hnone.
  pose proof (_process_event_node_step self event) as Hstep.
  rewrite Hcur in Hstep. simpl in Hstep.
  rewrite (node_step_unmatched _ _ _ Hnone) in Hstep.
  exists (store_step self (event_ref event) (refresh event cur, [], false)).1,
    (refresh event cur).
  split; [exact Hstep|].
  split; [|repeat split; try done].
  - rewrite (get_node_store_step self _ _ cur _ Hcur). by rewrite decide_True.
  - intros ref Hother. rewrite (get_node_store_step self _ _ cur _ Hcur).
    by rewrite decide_False.
Qed.


End Events.

(** ** Reconciliation against a list snapshot *)

Section Reconciliation.

Variable MAX_MEMORY : Z.
Variable get_node_state_flow :
  NodeStatus → NodeEventType → NodeStatus → option NodeStateFlow.

Local Abbreviation process_event := (_process_event MAX_MEMORY get_node_state_flow).
Local Abbreviation replay := (list_nodes_events MAX_MEMORY get_node_state_flow).
Local Abbreviation process_list_nodes :=
  (_process_list_nodes MAX_MEMORY get_node_state_flow).

Lemma listed_ids_cons (node : Node) (nodes : list Node) (node_type : NodeType) :
  listed_ids (node :: nodes) node_type
  = if decide (Node.type node = node_type)
    then Node.id node :: listed_ids nodes node_type
    else listed_ids nodes node_type.
Proof. unfold listed_ids. rewrite filter_cons. by case_decide. Qed.

Lemma not_listed_cons (node : Node) (nodes : list Node) (ref : NodeRef) :
  ref.2 ∉ listed_ids (node :: nodes) ref.1 →
  (Node.type node, Node.id node) ≠ ref ∧ ref.2 ∉ listed_ids nodes ref.1.
Proof.
  rewrite listed_ids_cons. destruct ref as [node_type node_id]. simpl.
  case_decide as Htype.
  - rewrite not_elem_of_cons. intros [Hid Hrest]. split; [congruence|done].
  - intros Hrest. split; [congruence|done].
Qed.

(** The first loop appends to [exist_pods] the listed ids of every type,
    touches no node that the snapshot does not list, and calls no
    subscriber on such a node. *)
Lemma list_nodes_events_exist_pods (nodes : list Node) (self final : NodeManager)
    (exist_pods exist_pods' : gmap NodeType (list Z)) (effects : list Effect)
    (node_type : NodeType) :
  replay self exist_pods nodes = Some (final, exist_pods', effects) →
  exist_pods' !! node_type
  = (λ ids, ids ++ listed_ids nodes node_type) <$> exist_pods !! node_type.
Proof.
  revert self exist_pods effects.
  induction nodes as [|node rest IH]; intros self exist_pods effects; simpl.
  - intros [= <- <- <-]. unfold listed_ids. simpl.
    destruct (exist_pods !! node_type); simpl; by rewrite ?app_nil_r.
  - destruct (exist_pods !! Node.type node) as [ids|] eqn:Hids; [|done]. simpl.
    destruct (process_event self _) as [[self' now]|]; [|done]. simpl.
    destruct (replay self' _ rest) as [[[final' pods'] later]|] eqn:Hrest; [|done].
    simpl. intros [= <- <- <-].
    rewrite (IH _ _ _ Hrest), listed_ids_cons.
    case_decide as Htype.
    + subst node_type. rewrite lookup_insert_eq, Hids. simpl.
      by rewrite <- app_assoc.
    + by rewrite lookup_insert_ne.
Qed.

Lemma list_nodes_events_unlisted (nodes : list Node) (self final : NodeManager)
    (exist_pods exist_pods' : gmap NodeType (list Z)) (effects : list Effect)
    (ref : NodeRef) :
  replay self exist_pods nodes = Some (final, exist_pods', effects) →
  ref.2 ∉ listed_ids nodes ref.1 →
  get_node final ref = get_node self ref
  ∧ Forall (λ e, ¬ is_call_on ref e) effects.
Proof.
  revert self exist_pods effects.
  induction nodes as [|node rest IH]; intros self exist_pods effects; simpl.
  - intros [= <- <- <-] _. split; [done|constructor].
  - destruct (exist_pods !! Node.type node) as [ids|]; [|done]. simpl.
    destruct (process_event self _) as [[self' now]|] eqn:Hevent; [|done]. simpl.
    destruct (replay self' _ rest) as [[[final' pods'] later]|] eqn:Hrest; [|done].
    simpl. intros [= <- <- <-] Hunlisted.
    apply not_listed_cons in Hunlisted as [Hother Hunlisted].
    destruct (IH _ _ _ Hrest Hunlisted) as [Hfinal Hlater].
    destruct (_process_event_get_node _ _ _ _ _ _ Hevent)
      as (cur & Hcur & -> & Hget & _).
    split.
    + rewrite Hfinal, Hget. by rewrite decide_False.
    + apply Forall_app. split; [|done].
      pose proof (node_step_effects MAX_MEMORY get_node_state_flow self
                    {| event_type := if bool_decide (Node.status node = DELETED)
                                     then DELETED_EVENT else MODIFIED;
                       node := node |} cur) as [Hon _].
      eapply Forall_impl; [exact Hon|]. intros e Himp Hcall.
      destruct e as [cb method ref' arg|]; [|done]. simpl in *.
      specialize (Himp I). unfold event_ref in Himp. simpl in Himp. congruence.
Qed.

Lemma list_nodes_events_is_Some (nodes : list Node) (self : NodeManager)
    (exist_pods : gmap NodeType (list Z)) :
  (∀ node, node ∈ nodes →
     is_Some (get_node self (Node.type node, Node.id node))
     ∧ is_Some (exist_pods !! Node.type node)) →
  is_Some (replay self exist_pods nodes).
Proof.
  revert self exist_pods.
  induction nodes as [|node rest IH]; intros self exist_pods Hknown; simpl; [by eauto|].
  destruct (Hknown node) as [Hnode [ids Hids]]; [by left|].
  rewrite Hids. simpl.
  apply (_process_event_is_Some MAX_MEMORY get_node_state_flow self
           {| event_type := if bool_decide (Node.status node = DELETED)
                            then DELETED_EVENT else MODIFIED;
              node := node |}) in Hnode as [[self' now] Hevent].
  rewrite Hevent. simpl.
  destruct (IH self' (<[Node.type node := ids ++ [Node.id node]]> exist_pods))
    as [[[final pods] later] Hrest].
  - intros other Hother. destruct (Hknown other) as [[old Hold] Hpods]; [by right|].
    split.
    + destruct (_process_event_keeps_flags _ _ _ _ _ _ _ _ Hevent Hold) as (new & -> & _).
      by eauto.
    + apply lookup_insert_is_Some'. by right.
  - rewrite Hrest. by eauto.
Qed.

Lemma get_node_release_missing (self : NodeManager) (exist_pods : gmap NodeType (list Z))
    (ref : NodeRef) :
  get_node (with_job_nodes (release_missing exist_pods (_job_nodes self)) self) ref
  = (λ node,
       if bool_decide (Node.status node ≠ INITIAL)
          && negb (Node.is_released node)
          && bool_decide (ref.2 ∉ default [] (exist_pods !! ref.1))
       then Node.set_is_released true node
       else node) <$> get_node self ref.
Proof.
  unfold get_node, release_missing. simpl. rewrite map_lookup_imap.
  destruct (_job_nodes self !! ref.1) as [group|]; [|done]. simpl.
  rewrite map_lookup_imap. by destruct (group !! ref.2).
Qed.

(** C5: after [_process_list_nodes] has returned, a node of the index
    whose id the snapshot does not list for its type, whose status is not
    INITIAL and which was not released is released and otherwise as it was,
    and the reconciliation has called no subscriber on it. *)
Theorem C5_reconcile_releases_missing (self self' : NodeManager) (nodes : list Node)
    (effects : list Effect) (ref : NodeRef) (old : Node) :
  process_list_nodes self nodes = Some (self', effects) →
  get_node self ref = Some old →
  ref.2 ∉ listed_ids nodes ref.1 →
  Node.status old ≠ INITIAL →
  Node.is_released old = false →
  get_node self' ref = Some (Node.set_is_released true old)
  ∧ Node.is_released (Node.set_is_released true old) = true
  ∧ Forall (λ e, ¬ is_call_on ref e) effects.
Proof.
  unfold _process_list_nodes. intros Hlist Hold Hunlisted Hstatus Hreleased.
  destruct (replay self _ nodes) as [[[final pods] later]|] eqn:Hreplay; [|done].
  simpl in Hlist. injection Hlist as <- <-.
  destruct (list_nodes_events_unlisted _ _ _ _ _ _ ref Hreplay Hunlisted)
    as [Hfinal Hcalls].
  assert (Hpods : pods !! ref.1 = Some (listed_ids nodes ref.1)).
  { rewrite (list_nodes_events_exist_pods _ _ _ _ _ _ ref.1 Hreplay), lookup_fmap.
    unfold get_node in Hold.
    destruct (_job_nodes self !! ref.1); [done|discriminate]. }
  split; [|split; [done|done]].
  rewrite get_node_release_missing, Hfinal, Hold, Hpods. simpl.
  rewrite Hreleased. simpl.
  by rewrite !bool_decide_eq_true_2.
Qed.

(** The reconciliation returns when every listed pod is a node of the
    index. *)
Lemma _process_list_nodes_returns (self : NodeManager) (nodes : list Node) :
  (∀ node, node ∈ nodes → is_Some (get_node self (Node.type node, Node.id node))) →
  is_Some (process_list_nodes self nodes).
Proof.
  intros Hknown. unfold _process_list_nodes.
  destruct (list_nodes_events_is_Some nodes self ((λ _, []) <$> _job_nodes self))
    as [[[final pods] later] Hreplay].
  - intros node Hnode. split; [by apply Hknown|].
    destruct (Hknown node Hnode) as [old Hold]. unfold get_node in Hold. simpl in Hold.
    rewrite lookup_fmap. destruct (_job_nodes self !! Node.type node); [by eauto|done].
  - rewrite Hreplay. by eauto.
Qed.

End Reconciliation.

(** ** Removal of the training nodes *)

Lemma is_removable_true (node : Node) :
  is_removable node = true
  ↔ Node.status node ∈ [RUNNING; PENDING] ∧ Node.is_released node = false.
Proof.
  unfold is_removable. rewrite andb_true_iff, bool_decide_eq_true, negb_true_iff.
  done.
Qed.

Lemma get_node_removed (self self' : NodeManager) (plan : ResourcePlan) (ref : NodeRef) :
  remove_training_nodes_loop self = Some (self', plan) →
  get_node self' ref
  = (if bool_decide (ref.1 ∈ [WORKER; PS]) then remove_node else λ node, node)
      <$> get_node self ref.
Proof.
  unfold remove_training_nodes_loop, get_node.
  destruct (_job_nodes self !! WORKER) as [workers|] eqn:Hworkers; [|done].
  destruct (_job_nodes self !! PS) as [servers|] eqn:Hservers; [|done].
  simpl. intros [= <- _]. simpl. destruct ref as [[] node_id]; simpl.
  - rewrite lookup_insert_eq, Hservers. simpl. by rewrite lookup_fmap.
  - rewrite !lookup_insert_ne by done.
    destruct (_ !! CHIEF) as [group|]; [|done]. simpl.
    by destruct (group !! node_id).
  - rewrite lookup_insert_ne, lookup_insert_eq, Hworkers by done. simpl.
    by rewrite lookup_fmap.
  - rewrite !lookup_insert_ne by done.
    destruct (_ !! EVALUATOR) as [group|]; [|done]. simpl.
    by destruct (group !! node_id).
Qed.

Lemma elem_of_removed_names (group : gmap Z Node) (name : string) :
  name ∈ removed_names group
  ↔ ∃ node_id node, group !! node_id = Some node
                    ∧ is_removable node = true ∧ Node.name node = name.
Proof.
  unfold removed_names. rewrite list_elem_of_fmap. split.
  - intros (node & -> & Hin). apply list_elem_of_filter in Hin as [Hremovable Hin].
    apply list_elem_of_fmap in Hin as ([node_id node'] & -> & Hin).
    apply elem_of_map_to_list in Hin. by exists node_id, node'.
  - intros (node_id & node & Hnode & Hremovable & <-). exists node. split; [done|].
    apply list_elem_of_filter. split; [done|].
    apply list_elem_of_fmap. exists (node_id, node). split; [done|].
    by apply elem_of_map_to_list.
Qed.

(** C6 (amended): when the index has a WORKER and a PS group,
    [remove_training_nodes] turns every PS and Worker node whose status is
    RUNNING or PENDING and that is not yet released into a non-critical,
    non-relaunchable, released node of status DELETED, leaves every other
    node as it was, and the plan filled by its loop holds the names of
    exactly the nodes it removed. *)
Theorem C6_remove_training_nodes (self : NodeManager) :
  is_Some (_job_nodes self !! WORKER) →
  is_Some (_job_nodes self !! PS) →
  ∃ self' plan,
    remove_training_nodes_loop self = Some (self', plan)
    ∧ fst <$> remove_training_nodes self = Some self'
    ∧ (∀ ref old, get_node self ref = Some old →
         if bool_decide (ref.1 ∈ [WORKER; PS])
            && bool_decide (Node.status old ∈ [RUNNING; PENDING])
            && negb (Node.is_released old)
         then get_node self' ref
              = Some (Node.set_status DELETED
                        (Node.set_is_released true
                           (Node.set_relaunchable false (Node.set_critical false old))))
         else get_node self' ref = Some old)
    ∧ (∀ ref, get_node self ref = None → get_node self' ref = None)
    ∧ (∀ name, name ∈ removed_nodes plan
               ↔ ∃ ref node, ref.1 ∈ [WORKER; PS]
                             ∧ get_node self ref = Some node
                             ∧ Node.status node ∈ [RUNNING; PENDING]
                             ∧ Node.is_released node = false
                             ∧ Node.name node = name).
Proof.
  intros [workers Hworkers] [servers Hservers].
  destruct (remove_training_nodes_loop self) as [[self' plan]|] eqn:Hloop;
    [|by unfold remove_training_nodes_loop in Hloop;
         rewrite Hworkers, Hservers in Hloop].
  exists self', plan. split; [done|]. split.
  { unfold remove_training_nodes. by rewrite Hloop. }
  split; [|split].
  - intros ref old Hold. rewrite (get_node_removed _ _ _ ref Hloop), Hold.
    unfold remove_node, is_removable. simpl.
    by destruct (bool_decide (ref.1 ∈ _)), (bool_decide (Node.status old ∈ _)),
                (Node.is_released old).
  - intros ref Hnone. by rewrite (get_node_removed _ _ _ ref Hloop), Hnone.
  - intros name. unfold remove_training_nodes_loop in Hloop.
    rewrite Hworkers, Hservers in Hloop. simpl in Hloop. injection Hloop as _ <-.
    simpl. rewrite elem_of_app, !elem_of_removed_names.
    setoid_rewrite is_removable_true. split.
    + intros [(node_id & node & Hnode & [? ?] & ?)|(node_id & node & Hnode & [? ?] & ?)].
      * exists (WORKER, node_id), node. unfold get_node. simpl. rewrite Hworkers.
        repeat split; try done. by left.
      * exists (PS, node_id), node. unfold get_node. simpl. rewrite Hservers.
        repeat split; try done. right. by left.
    + intros ([node_type node_id] & node & Htype & Hnode & ? & ? & ?).
      unfold get_node in Hnode. simpl in *.
      apply elem_of_cons in Htype as [->|Htype].
      * left. rewrite Hworkers in Hnode. by exists node_id, node.
      * apply list_elem_of_singleton in Htype as ->.
        right. rewrite Hservers in Hnode. by exists node_id, node.
Qed.

(** ** The claims on concrete jobs *)

Lemma within_cap_one_node (node_type : NodeType) (node_id : Z) (node : Node) :
  Node.relaunch_count node <= Node.max_relaunch_count node + 1 →
  within_cap (sample_manager {[ node_type := {[ node_id := node ]} ]}).
Proof.
  intros Hcap [node_type' node_id'] node'. unfold get_node. simpl.
  intros Hnode. apply bind_Some in Hnode as (group & Hgroup & Hnode).
  apply lookup_singleton_Some in Hgroup as [_ <-].
  by apply lookup_singleton_Some in Hnode as [_ <-].
Defined.

(** Whatever the state-flow table, a processed event leaves the node with
    the status the event reports. *)
Lemma _process_event_overwrites_status (MAX_MEMORY : Z)
    (get_node_state_flow : NodeStatus → NodeEventType → NodeStatus → option NodeStateFlow)
    (self self' : NodeManager) (event : NodeEvent) (effects : list Effect) :
  _process_event MAX_MEMORY get_node_state_flow self event = Some (self', effects) →
  Node.status <$> get_node self' (event_ref event) = Some (Node.status (node event)).
Proof.
  intros Hevent.
  apply _process_event_get_node in Hevent as (cur & _ & _ & Hget & _).
  rewrite Hget, decide_True by done. simpl.
  by destruct (node_step_refreshed MAX_MEMORY get_node_state_flow self event cur)
    as [-> _].
Qed.

(** C1: the chief has succeeded and a spurious MODIFIED event reports it
    as RUNNING.  No subscriber is called, but the node does not stay
    SUCCEEDED: [update_status] has run before the check for a succeeded
    pod, and the stored status is RUNNING. *)
Theorem C1_succeeded_status_overwritten :
  Node.status <$> get_node chief_job (CHIEF, 0) = Some SUCCEEDED
  ∧ observe (CHIEF, 0)
      (_process_event sample_max_memory notable_state_flow chief_job chief_running_again)
    = Some (Node.set_status RUNNING (sample_node CHIEF 0 "chief-0" SUCCEEDED), []).
Proof. split; vm_compute; reflexivity. Qed.

(** C3, counterexample: a killed node is relaunched whatever its count.
    A worker with [max_relaunch_count = 0] that is killed, reported running
    and killed again ends with a relaunch count of 2; and a worker that is
    at the cap (count 1, maximum 0) leaves it with a single KILLED event. *)
Lemma C3_counterexample :
  let final :=
    (watch_events sample_max_memory notable_state_flow worker_job
                  [worker_killed; worker_running; worker_killed]).1 in
  let at_cap :=
    sample_manager
      {[ WORKER := {[ 0 := Node.inc_relaunch_count
                             (sample_node WORKER 0 "worker-0" RUNNING) ]} ]} in
  let beyond :=
    (watch_events sample_max_memory notable_state_flow at_cap [worker_killed]).1 in
  (within_cap worker_job
   ∧ Node.relaunch_count <$> get_node final (WORKER, 0) = Some 2
   ∧ Node.max_relaunch_count <$> get_node final (WORKER, 0) = Some 0
   ∧ ¬ within_cap final)
  ∧ (within_cap at_cap
     ∧ Node.relaunch_count <$> get_node beyond (WORKER, 0) = Some 2
     ∧ Node.max_relaunch_count <$> get_node beyond (WORKER, 0) = Some 0
     ∧ ¬ within_cap beyond).
Proof.
  intros final at_cap beyond.
  assert (Hbreak : ∀ self,
            Node.relaunch_count <$> get_node self (WORKER, 0) = Some 2 →
            Node.max_relaunch_count <$> get_node self (WORKER, 0) = Some 0 →
            ¬ within_cap self).
  { intros self Hcount Hmax Hcap.
    destruct (get_node self (WORKER, 0)) as [node|] eqn:Hnode; [|done].
    specialize (Hcap _ _ Hnode). simpl in Hcount, Hmax.
    injection Hcount as Hcount. injection Hmax as Hmax. lia. }
  assert (Hcount : Node.relaunch_count <$> get_node final (WORKER, 0) = Some 2)
    by (vm_compute; reflexivity).
  assert (Hmax : Node.max_relaunch_count <$> get_node final (WORKER, 0) = Some 0)
    by (vm_compute; reflexivity).
  assert (Hcount' : Node.relaunch_count <$> get_node beyond (WORKER, 0) = Some 2)
    by (vm_compute; reflexivity).
  assert (Hmax' : Node.max_relaunch_count <$> get_node beyond (WORKER, 0) = Some 0)
    by (vm_compute; reflexivity).
  split.
  - split; [by apply within_cap_one_node|]. by auto.
  - split; [by apply within_cap_one_node|]. by auto.
Qed.

(** C3 on a worker that fails twice with an unknown error. *)
Lemma C3_witness :
  within_cap (watch_events sample_max_memory notable_state_flow worker_job
                           [worker_failed; worker_running; worker_failed]).1.
Proof.
  apply (C3_cap_kept_without_killed sample_max_memory notable_state_flow worker_job).
  - repeat constructor; simpl; discriminate.
  - apply within_cap_one_node. simpl. lia.
Defined.

(** C4, counterexample: after [stop] the worker is released, and the
    event reporting its success still calls [on_node_succeeded] on every
    subscriber. *)
Lemma C4_counterexample :
  Node.is_released <$> get_node (stop worker_job) (WORKER, 0) = Some true
  ∧ (watch_events sample_max_memory notable_state_flow (stop worker_job)
                  [worker_succeeded]).2
    = invoke_all worker_job on_node_succeeded (WORKER, 0)
        (Node.set_status SUCCEEDED
           (Node.set_is_released true
              (Node.set_critical false (sample_node WORKER 0 "worker-0" RUNNING)))).
Proof. split; vm_compute; reflexivity. Qed.

(** C5 on scenario 4: the parameter server is missing from the list. *)
Lemma C5_witness :
  get_node reconciled.1 (PS, 0)
  = Some (Node.set_is_released true (sample_node PS 0 "ps-0" PENDING))
  ∧ Node.is_released (Node.set_is_released true (sample_node PS 0 "ps-0" PENDING)) = true
  ∧ Forall (λ e, ¬ is_call_on (PS, 0) e) reconciled.2.
Proof.
  apply (C5_reconcile_releases_missing sample_max_memory notable_state_flow
           training_job reconciled.1 snapshot_without_ps reconciled.2).
  - vm_compute. reflexivity.
  - vm_compute. reflexivity.
  - vm_compute. apply not_elem_of_nil.
  - discriminate.
  - reflexivity.
Defined.

(** C6, counterexample: worker 3 is RUNNING but already released;
    [remove_training_nodes] leaves it RUNNING, critical and relaunchable. *)
Lemma C6_counterexample :
  let old := Node.set_is_released true (sample_node WORKER 3 "worker-3" RUNNING) in
  get_node training_job (WORKER, 3) = Some old
  ∧ Node.status old = RUNNING
  ∧ (remove_training_nodes training_job ≫= λ result, get_node result.1 (WORKER, 3))
    = Some old
  ∧ Node.critical old = true ∧ Node.relaunchable old = true.
Proof. repeat split; vm_compute; reflexivity. Qed.

(** C6 on scenario 6. *)
Lemma C6_witness :
  ∃ self' plan,
    remove_training_nodes_loop training_job = Some (self', plan)
    ∧ fst <$> remove_training_nodes training_job = Some self'
    ∧ get_node self' (WORKER, 0)
      = Some (Node.set_status DELETED
                (Node.set_is_released true
                   (Node.set_relaunchable false
                      (Node.set_critical false (sample_node WORKER 0 "worker-0" RUNNING)))))
    ∧ get_node self' (WORKER, 2) = Some (sample_node WORKER 2 "worker-2" SUCCEEDED)
    ∧ ("ps-0" ∈ removed_nodes plan ↔
       ∃ ref node, ref.1 ∈ [WORKER; PS]
                   ∧ get_node training_job ref = Some node
                   ∧ Node.status node ∈ [RUNNING; PENDING]
                   ∧ Node.is_released node = false
                   ∧ Node.name node = "ps-0").
Proof.
  destruct (C6_remove_training_nodes training_job) as (self' & plan & H1 & H2 & H3 & _ & H5).
  - vm_compute. eauto.
  - vm_compute. eauto.
  - exists self', plan. split; [exact H1|]. split; [exact H2|].
    split; [exact (H3 (WORKER, 0) _ eq_refl)|].
    split; [exact (H3 (WORKER, 2) _ eq_refl)|].
    exact (H5 "ps-0").
Defined.

(** C8, counterexample: no flow matches an ADDED event that reports the
    running worker as PENDING under another name, and the stored node has
    changed all the same: it carries the new name and the status PENDING. *)
Lemma C8_counterexample :
  let old := sample_node WORKER 0 "worker-0" RUNNING in
  let new := sample_node WORKER 0 "worker-0-copy" PENDING in
  notable_state_flow RUNNING ADDED PENDING = None
  ∧ get_node worker_job (WORKER, 0) = Some old
  ∧ observe (WORKER, 0)
      (_process_event sample_max_memory notable_state_flow worker_job
                      worker_renamed_pending)
    = Some (new, [])
  ∧ new ≠ old.
Proof. repeat split; try (vm_compute; reflexivity). discriminate. Qed.

(** C8 on the same event. *)
Lemma C8_witness :
  ∃ self' new,
    _process_event sample_max_memory notable_state_flow worker_job worker_renamed_pending
    = Some (self', [])
    ∧ get_node self' (WORKER, 0) = Some new
    ∧ Node.name new = "worker-0-copy"
    ∧ Node.exit_reason new = NO_REASON
    ∧ Node.relaunch_count new = 0.
Proof.
  destruct (C8_unmatched_event_frame sample_max_memory notable_state_flow worker_job
              worker_renamed_pending (sample_node WORKER 0 "worker-0" RUNNING))
    as (self' & new & H1 & H2 & H3 & H4 & H5 & _).
  - vm_compute. reflexivity.
  - reflexivity.
  - exists self', new. split; [exact H1|]. split; [exact H2|].
    split; [exact (f_equal Node.name (H3 RUNNING))|].
    split; [exact H4|exact H5].
Defined.



(** ** Further properties of event processing *)

Section Accounting.

Variable MAX_MEMORY : Z.
Variable get_node_state_flow :
  NodeStatus → NodeEventType → NodeStatus → option NodeStateFlow.

Local Abbreviation process_event := (_process_event MAX_MEMORY get_node_state_flow).
Local Abbreviation step := (node_step MAX_MEMORY get_node_state_flow).
Local Abbreviation watch := (watch_events MAX_MEMORY get_node_state_flow).

Lemma relaunch_requests_app (ref : NodeRef) (e1 e2 : list Effect) :
  relaunch_requests ref (e1 ++ e2) = relaunch_requests ref e1 + relaunch_requests ref e2.
Proof. unfold relaunch_requests. rewrite filter_app, length_app. lia. Qed.

Lemma all_relaunch_requests_app (e1 e2 : list Effect) :
  all_relaunch_requests (e1 ++ e2) = all_relaunch_requests e1 + all_relaunch_requests e2.
Proof. unfold all_relaunch_requests. rewrite filter_app, length_app. lia. Qed.

Lemma relaunch_requests_calls (ref : NodeRef) (effects : list Effect) :
  Forall is_call effects →
  relaunch_requests ref effects = 0 ∧ all_relaunch_requests effects = 0.
Proof.
  unfold relaunch_requests, all_relaunch_requests.
  induction 1 as [|e rest He _ [IH1 IH2]]; [done|].
  destruct e; [|done]. by rewrite !filter_cons_False.
Qed.

Lemma _process_node_events_calls (self : NodeManager) (flow : NodeStateFlow)
    (ref : NodeRef) (node : Node) :
  _process_node_events self flow ref node = []
  ∨ ∃ method, _process_node_events self flow ref node = invoke_all self method ref node.
Proof.
  unfold _process_node_events, invoke_all.
  repeat match goal with
    | |- context [if ?b then _ else _] => destruct b
    end; by eauto.
Qed.

Lemma invoke_all_calls (self : NodeManager) (method : CallbackMethod)
    (ref : NodeRef) (node : Node) :
  Forall (λ e, is_call e ∧ effect_ref e = ref) (invoke_all self method ref node).
Proof. unfold invoke_all. apply Forall_fmap, Forall_forall. by intros. Qed.

(** The effects of one step: the calls of the subscribers, then at most
    one relaunch request, which is there exactly when the verdict is. *)
Lemma node_step_shape (self : NodeManager) (event : NodeEvent) (cur : Node) :
  let result := step self event cur in
  ∃ calls,
    (calls = [] ∨ ∃ method node, calls = invoke_all self method (event_ref event) node)
    ∧ result.1.2
      = calls ++ (if result.2 then [RelaunchPod (event_ref event) result.1.1] else []).
Proof.
  unfold node_step. simpl.
  destruct (get_node_state_flow _ _ _) as [flow|]; [|by exists []; split; [left|]].
  case_bool_decide; [by exists []; split; [left|]|]. simpl.
  eexists. split; [|done].
  destruct (_process_node_events_calls self flow (event_ref event)
              (Node.set_exit_reason (Node.exit_reason (node event)) (refresh event cur)))
    as [->|[method ->]]; [by left|right; by eauto].
Qed.

Lemma node_step_requests (self : NodeManager) (event : NodeEvent) (cur : Node)
    (ref : NodeRef) :
  let result := step self event cur in
  relaunch_requests ref result.1.2
  = (if result.2 && bool_decide (event_ref event = ref) then 1 else 0)
  ∧ all_relaunch_requests result.1.2 = (if result.2 then 1 else 0).
Proof.
  simpl. destruct (node_step_shape self event cur) as (calls & Hcalls & ->).
  assert (Hnone : Forall is_call calls).
  { destruct Hcalls as [->|(method & node & ->)]; [constructor|].
    eapply Forall_impl; [apply invoke_all_calls|]. by intros e [? _]. }
  destruct (relaunch_requests_calls ref calls Hnone) as [Hone Hall].
  rewrite relaunch_requests_app, all_relaunch_requests_app, Hone, Hall.
  destruct (step self event cur).2; simpl; [|done].
  unfold relaunch_requests, all_relaunch_requests.
  rewrite (filter_cons_True (λ e, is_relaunch e = true)) by done.
  case_bool_decide as Href; simpl.
  - rewrite filter_cons_True; [done|]. simpl. by apply bool_decide_eq_true.
  - rewrite filter_cons_False; [done|]. simpl. by rewrite bool_decide_eq_true.
Qed.

(** The index keeps its nodes: an event neither adds nor drops one. *)
Lemma _process_event_same_nodes (self self' : NodeManager) (event : NodeEvent)
    (effects : list Effect) (ref : NodeRef) :
  process_event self event = Some (self', effects) →
  is_Some (get_node self' ref) ↔ is_Some (get_node self ref).
Proof.
  intros Hevent.
  apply _process_event_get_node in Hevent as (cur & Hcur & _ & Hget & _).
  rewrite Hget. case_decide as Href; [|done]. subst ref. rewrite Hcur.
  split; by eauto.
Qed.

(** A scheme for what a sequence of events does to one node.  [R] relates
    the node before, the effects and the node after; it is enough that [R]
    holds for no event, composes, holds for one step on the node and is
    not disturbed by a step on another node. *)
Lemma watch_events_node_scheme (ref : NodeRef) (R : Node → list Effect → Node → Prop) :
  (∀ node, R node [] node) →
  (∀ a b c e1 e2, R a e1 b → R b e2 c → R a (e1 ++ e2) c) →
  (∀ self event cur, event_ref event = ref →
     R cur (step self event cur).1.2 (step self event cur).1.1) →
  (∀ self event cur node, event_ref event ≠ ref →
     R node (step self event cur).1.2 node) →
  ∀ events self old,
    get_node self ref = Some old →
    ∃ new, get_node (watch self events).1 ref = Some new
           ∧ R old (watch self events).2 new.
Proof.
  intros Hnil Hcomp Hstep Hother events.
  induction events as [|event rest IH]; intros self old Hold; simpl.
  - by exists old.
  - destruct (process_event self event) as [[self' effects]|] eqn:Hevent;
      [|by apply IH].
    destruct (_process_event_get_node _ _ _ _ _ _ Hevent)
      as (cur & Hcur & -> & Hget & _).
    assert (∃ mid, get_node self' ref = Some mid
                   ∧ R old (step self event cur).1.2 mid) as (mid & Hmid & Hfirst).
    { rewrite Hget. case_decide as Href.
      - rewrite Href in Hcur. rewrite Hcur in Hold. injection Hold as ->.
        eexists. split; [done|]. by apply Hstep.
      - exists old. split; [done|]. by apply Hother. }
    destruct (IH self' mid Hmid) as (new & Hnew & Hrest).
    destruct (watch self' rest) as [final later]. simpl in *.
    exists new. split; [done|]. by eapply Hcomp.
Qed.

(** X1: an event changes nothing but the node it names: every other node
    is as before, no node appears or disappears, the subscribers and the
    switches of the manager stay, and every effect is about that node. *)
Theorem X1_event_touches_one_node (self self' : NodeManager) (event : NodeEvent)
    (effects : list Effect) :
  process_event self event = Some (self', effects) →
  (∀ ref, ref ≠ event_ref event → get_node self' ref = get_node self ref)
  ∧ (∀ ref, is_Some (get_node self' ref) ↔ is_Some (get_node self ref))
  ∧ _node_event_callbacks self' = _node_event_callbacks self
  ∧ _relaunch_pod self' = _relaunch_pod self
  ∧ _wait_pending_relaunch self' = _wait_pending_relaunch self
  ∧ _stop_monitor self' = _stop_monitor self
  ∧ Forall (λ e, effect_ref e = event_ref event) effects.
Proof.
  intros Hevent.
  pose proof (λ ref, _process_event_same_nodes _ _ _ _ ref Hevent) as Hsame.
  destruct (_process_event_get_node _ _ _ _ _ _ Hevent)
    as (cur & Hcur & Heffects & Hget & Hpod & Hcallbacks).
  apply _process_event_Some in Hevent as (cur' & _ & Hstore).
  pose proof (f_equal fst Hstore) as Hself. simpl in Hself.
  split; [intros ref Hother; rewrite Hget; by rewrite decide_False|].
  split; [done|]. split; [done|]. split; [done|].
  split; [by rewrite Hself|]. split; [by rewrite Hself|].
  rewrite Heffects.
  destruct (node_step_shape self event cur) as (calls & Hcalls & ->).
  apply Forall_app. split.
  - destruct Hcalls as [->|(method & node & ->)]; [constructor|].
    eapply Forall_impl; [apply invoke_all_calls|]. by intros e [_ ?].
  - destruct (step self event cur).2; by repeat constructor.
Qed.

(** X3: whatever the state-flow table answers, a processed event leaves
    the node it names with the status, name, start time and creation time
    the event reports, and with the type, id, resources, relaunch bound
    and the flags critical, relaunchable and released it had. *)
Theorem X3_event_refreshes_node (self self' : NodeManager) (event : NodeEvent)
    (effects : list Effect) :
  process_event self event = Some (self', effects) →
  ∃ old new,
    get_node self (event_ref event) = Some old
    ∧ get_node self' (event_ref event) = Some new
    ∧ Node.status new = Node.status (node event)
    ∧ Node.name new = Node.name (node event)
    ∧ Node.start_time new = Node.start_time (node event)
    ∧ Node.create_time new = Node.create_time (node event)
    ∧ Node.type new = Node.type old
    ∧ Node.id new = Node.id old
    ∧ Node.used_resource new = Node.used_resource old
    ∧ Node.max_relaunch_count new = Node.max_relaunch_count old
    ∧ Node.critical new = Node.critical old
    ∧ Node.relaunchable new = Node.relaunchable old
    ∧ Node.is_released new = Node.is_released old.
Proof.
  intros Hevent.
  apply _process_event_get_node in Hevent as (cur & Hcur & _ & Hget & _).
  exists cur, (step self event cur).1.1. split; [done|].
  split; [by rewrite Hget, decide_True|].
  pose proof (node_step_refreshed MAX_MEMORY get_node_state_flow self event cur)
    as (? & ? & ? & ?).
  pose proof (node_step_frame MAX_MEMORY get_node_state_flow self event cur)
    as (? & ? & ? & ? & ? & ? & ?).
  by repeat split.
Qed.

Ltac verdict_cases :=
  unfold node_step, _should_relaunch, refresh;
  repeat match goal with
    | |- context [match get_node_state_flow ?a ?b ?c with _ => _ end] =>
        destruct (get_node_state_flow a b c) as [?flow|] eqn:?Hflow
    | |- context [bool_decide ?P] => destruct (bool_decide_reflect P)
    | |- context [should_relaunch ?f && _] => destruct (should_relaunch f) eqn:?Hsr
    | |- context [_relaunch_pod ?s && _] => destruct (_relaunch_pod s) eqn:?Hrp
    | |- context [if Node.relaunchable ?n then _ else _] =>
        destruct (Node.relaunchable n) eqn:?Hrl
    | _ => progress simpl in *
    end.

(** When one step asks for a relaunch. *)
Lemma node_step_verdict (self : NodeManager) (event : NodeEvent) (cur : Node) :
  (step self event cur).2 = true
  ↔ ∃ flow,
      get_node_state_flow (Node.status cur) (event_type event) (Node.status (node event))
        = Some flow
      ∧ from_status flow ≠ SUCCEEDED
      ∧ should_relaunch flow = true
      ∧ _relaunch_pod self = true
      ∧ Node.relaunchable cur = true
      ∧ relaunch_allowed MAX_MEMORY (Node.exit_reason (node event)) cur.
Proof.
  unfold relaunch_allowed. split.
  - verdict_cases; intros Htrue; try discriminate;
      (eexists; split; [reflexivity|]; repeat split; try done; try lia;
       intros; try lia; congruence).
  - intros (flow & Hflow & Hfrom & Hsr & Hpod & Hrel & Hfatal & Hoom & Hother).
    unfold node_step, _should_relaunch, refresh. rewrite Hflow.
    rewrite bool_decide_eq_false_2 by done. simpl.
    rewrite Hsr, Hpod, Hrel. simpl.
    repeat case_bool_decide; simpl; try done.
    + destruct Hoom; [done|lia].
    + destruct Hoom; [done|lia].
    + specialize (Hother ltac:(done) ltac:(done)). lia.
Qed.

Lemma node_step_recovered_oom (self : NodeManager) (event : NodeEvent) (cur : Node) :
  let result := step self event cur in
  Node.is_recovered_oom result.1.1
  = Node.is_recovered_oom cur
    || (result.2 && bool_decide (Node.exit_reason (node event) = OOM)).
Proof.
  verdict_cases; rewrite ?orb_false_r, ?orb_true_r; try done; congruence.
Qed.

(** X2: the watch loop skips the events that name a node the index does
    not have: dropping them from the stream changes neither the manager
    nor the effects. *)
Theorem X2_watch_skips_unknown_nodes (self : NodeManager) (events : list NodeEvent) :
  watch self events = watch self (filter (is_known self) events).
Proof.
  revert self. induction events as [|event rest IH]; intros self; [done|].
  destruct (decide (is_known self event)) as [Hknown|Hunknown].
  - rewrite filter_cons_True by done. simpl.
    apply (_process_event_is_Some MAX_MEMORY get_node_state_flow) in Hknown
      as [[self' effects] Hevent].
    rewrite Hevent, (IH self').
    rewrite (list_filter_iff (is_known self') (is_known self)); [done|].
    intros other. unfold is_known. by eapply _process_event_same_nodes.
  - rewrite filter_cons_False by done. simpl.
    destruct (process_event self event) as [result|] eqn:Hevent; [|by apply IH].
    destruct Hunknown.
    apply (_process_event_is_Some MAX_MEMORY get_node_state_flow). by eauto.
Qed.

(** X4: over any sequence of events, the relaunch count of a node grows
    by exactly the number of relaunch requests issued for it. *)
Theorem X4_relaunch_count_counts_requests (self : NodeManager)
    (events : list NodeEvent) (ref : NodeRef) (old : Node) :
  get_node self ref = Some old →
  ∃ new, get_node (watch self events).1 ref = Some new
         ∧ Node.relaunch_count new
           = Node.relaunch_count old + relaunch_requests ref (watch self events).2.
Proof.
  revert self old.
  apply (watch_events_node_scheme ref
           (λ a e b, Node.relaunch_count b = Node.relaunch_count a + relaunch_requests ref e)).
  - intros node. unfold relaunch_requests. simpl. lia.
  - intros a b c e1 e2 H1 H2. rewrite relaunch_requests_app. lia.
  - intros self event cur Href.
    pose proof (node_step_relaunch_count MAX_MEMORY get_node_state_flow self event cur)
      as Hcount.
    destruct (node_step_requests self event cur ref) as [Hreq _].
    simpl in *. rewrite Hcount, Hreq, bool_decide_eq_true_2, andb_true_r by done.
    done.
  - intros self event cur node Href.
    destruct (node_step_requests self event cur ref) as [Hreq _].
    simpl in *. rewrite Hreq, bool_decide_eq_false_2, andb_false_r by done. lia.
Qed.

(** X5: the counter of pending relaunches grows by the number of relaunch
    requests when the manager waits for pending relaunches, and does not
    move when it does not. *)
Theorem X5_pending_relaunch_count (self : NodeManager) (events : list NodeEvent) :
  _pending_relaunch_count (watch self events).1
  = _pending_relaunch_count self
    + (if _wait_pending_relaunch self
       then all_relaunch_requests (watch self events).2 else 0).
Proof.
  revert self. induction events as [|event rest IH]; intros self; simpl.
  - unfold all_relaunch_requests. simpl. destruct (_wait_pending_relaunch self); lia.
  - destruct (process_event self event) as [[self' effects]|] eqn:Hevent;
      [|by apply IH].
    apply _process_event_Some in Hevent as (cur & _ & Hstore).
    pose proof (f_equal fst Hstore) as Hself. pose proof (f_equal snd Hstore) as Heff.
    simpl in Hself, Heff. specialize (IH self').
    destruct (watch self' rest) as [final later]. simpl in *.
    rewrite IH, all_relaunch_requests_app, Hself, Heff. simpl.
    destruct (node_step_requests self event cur (event_ref event)) as [_ ->].
    destruct (step self event cur).2, (_wait_pending_relaunch self); simpl; lia.
Qed.

Lemma watch_events_not_relaunchable (self : NodeManager)
    (events : list NodeEvent) (ref : NodeRef) (old : Node) :
  get_node self ref = Some old →
  Node.relaunchable old = false →
  ∃ new, get_node (watch self events).1 ref = Some new
         ∧ Node.relaunchable new = false
         ∧ Node.relaunch_count new = Node.relaunch_count old
         ∧ relaunch_requests ref (watch self events).2 = 0.
Proof.
  intros Hold Hoff.
  destruct (watch_events_node_scheme ref
              (λ a e b, Node.relaunchable a = false →
                        Node.relaunchable b = false
                        ∧ Node.relaunch_count b = Node.relaunch_count a
                        ∧ relaunch_requests ref e = 0))
    with (events := events) (self := self) (old := old) as (new & Hnew & Hrel);
    [..|done|by exists new; split; [done|apply Hrel]].
  - intros node Hnode. by repeat split.
  - intros a b c e1 e2 H1 H2 Ha. destruct (H1 Ha) as (Hb & ? & ?).
    destruct (H2 Hb) as (? & ? & ?). rewrite relaunch_requests_app.
    repeat split; [done|congruence|lia].
  - intros self0 event cur Href Hcur.
    assert (Hverdict : (step self0 event cur).2 = false).
    { destruct (step self0 event cur).2 eqn:Hv; [|done].
      apply node_step_verdict in Hv as (flow & _ & _ & _ & _ & ? & _). congruence. }
    pose proof (node_step_relaunch_count MAX_MEMORY get_node_state_flow self0 event cur)
      as Hcount.
    pose proof (node_step_frame MAX_MEMORY get_node_state_flow self0 event cur)
      as (_ & _ & _ & _ & _ & Hkeep & _).
    destruct (node_step_requests self0 event cur ref) as [Hreq _].
    simpl in *. rewrite Hverdict in Hcount, Hreq. simpl in Hreq.
    repeat split; [congruence|lia|done].
  - intros self0 event cur node Href Hnode.
    destruct (node_step_requests self0 event cur ref) as [Hreq _].
    simpl in Hreq. rewrite bool_decide_eq_false_2, andb_false_r in Hreq by done.
    by repeat split.
Qed.

(** X6: a node that is not relaunchable is never relaunched: through any
    sequence of events it stays not relaunchable, no relaunch is requested
    for it and its relaunch count stays. *)
Theorem X6_not_relaunchable_never_relaunched (self : NodeManager)
    (events : list NodeEvent) (ref : NodeRef) (old : Node) :
  get_node self ref = Some old →
  Node.relaunchable old = false →
  ∃ new, get_node (watch self events).1 ref = Some new
         ∧ Node.relaunchable new = false
         ∧ Node.relaunch_count new = Node.relaunch_count old
         ∧ relaunch_requests ref (watch self events).2 = 0.
Proof. apply watch_events_not_relaunchable. Qed.

(** X7: a processed event requests at most one relaunch, and it requests
    one exactly when the lookup finds a flow that does not start from
    SUCCEEDED and asks for a relaunch, relaunching is switched on, the node
    is relaunchable and the policy allows the reported exit reason. *)
Theorem X7_relaunch_requested_iff (self self' : NodeManager) (event : NodeEvent)
    (effects : list Effect) (cur : Node) :
  process_event self event = Some (self', effects) →
  get_node self (event_ref event) = Some cur →
  (all_relaunch_requests effects = 0 ∨ all_relaunch_requests effects = 1)
  ∧ (all_relaunch_requests effects = 1
     ↔ ∃ flow,
         get_node_state_flow (Node.status cur) (event_type event)
                             (Node.status (node event)) = Some flow
         ∧ from_status flow ≠ SUCCEEDED
         ∧ should_relaunch flow = true
         ∧ _relaunch_pod self = true
         ∧ Node.relaunchable cur = true
         ∧ relaunch_allowed MAX_MEMORY (Node.exit_reason (node event)) cur).
Proof.
  intros Hevent Hcur.
  apply _process_event_get_node in Hevent as (cur' & Hcur' & -> & _).
  rewrite Hcur in Hcur'. injection Hcur' as <-.
  destruct (node_step_requests self event cur (event_ref event)) as [_ Hall].
  simpl in Hall. rewrite Hall, <- node_step_verdict.
  destruct (step self event cur).2; split; try (by auto); split; by auto.
Qed.

(** X9: the mark [is_recovered_oom] of a node is never cleared by events,
    and when a sequence of events sets it, a relaunch has been requested
    for the node. *)
Theorem X9_recovered_oom_mark (self : NodeManager) (events : list NodeEvent)
    (ref : NodeRef) (old : Node) :
  get_node self ref = Some old →
  ∃ new, get_node (watch self events).1 ref = Some new
         ∧ (Node.is_recovered_oom old = true → Node.is_recovered_oom new = true)
         ∧ (Node.is_recovered_oom new = true →
            Node.is_recovered_oom old = true
            ∨ 0 < relaunch_requests ref (watch self events).2).
Proof.
  revert self old.
  assert (Hpos : ∀ e, 0 <= relaunch_requests ref e)
    by (intros e; unfold relaunch_requests; lia).
  apply (watch_events_node_scheme ref
           (λ a e b,
              (Node.is_recovered_oom a = true → Node.is_recovered_oom b = true)
              ∧ (Node.is_recovered_oom b = true →
                 Node.is_recovered_oom a = true ∨ 0 < relaunch_requests ref e))).
  - intros node. split; by auto.
  - intros a b c e1 e2 [H1 H1'] [H2 H2']. rewrite relaunch_requests_app.
    split; [by auto|]. intros Hc.
    destruct (H2' Hc) as [Hb|Hlater]; [|right; specialize (Hpos e1); lia].
    destruct (H1' Hb) as [Ha|Hearlier]; [by left|right; specialize (Hpos e2); lia].
  - intros self event cur Href.
    pose proof (node_step_recovered_oom self event cur) as Hmark.
    destruct (node_step_requests self event cur ref) as [Hreq _].
    cbv zeta in Hmark, Hreq. rewrite Hmark, Hreq.
    rewrite (bool_decide_eq_true_2 _ Href), andb_true_r.
    split.
    + intros ->. done.
    + intros [Hset|Hset]%orb_true_iff; [by left|right].
      apply andb_true_iff in Hset as [-> _]. lia.
  - intros self event cur node Href. split; by auto.
Qed.

(** X10: what a processed event sends out: either no call or one call of
    the same method to every subscriber in the order of registration, and
    after the calls at most one relaunch request; the request carries the
    node as it is stored after the event. *)
Theorem X10_effects_of_an_event (self self' : NodeManager) (event : NodeEvent)
    (effects : list Effect) :
  process_event self event = Some (self', effects) →
  ∃ calls requests new,
    effects = calls ++ requests
    ∧ get_node self' (event_ref event) = Some new
    ∧ (calls = []
       ∨ ∃ method node, calls = invoke_all self method (event_ref event) node)
    ∧ (requests = [] ∨ requests = [RelaunchPod (event_ref event) new]).
Proof.
  intros Hevent.
  apply _process_event_get_node in Hevent as (cur & Hcur & -> & Hget & _).
  destruct (node_step_shape self event cur) as (calls & Hcalls & Hshape).
  simpl in Hshape. eexists calls, _, _. split; [exact Hshape|].
  split; [by rewrite Hget, decide_True|]. split; [done|].
  destruct (step self event cur).2; by auto.
Qed.

(** *** Resource usage *)

Lemma get_node_update_resource_usage (self self' : NodeManager) (node_type : NodeType)
    (node_id used_cpu used_memory : Z) (ref : NodeRef) :
  update_node_resource_usage self node_type node_id used_cpu used_memory = Some self' →
  get_node self' ref
  = if decide ((node_type, node_id) = ref)
    then Node.update_resource_usage used_cpu used_memory <$> get_node self ref
    else get_node self ref.
Proof.
  unfold update_node_resource_usage.
  destruct (get_node self (node_type, node_id)) as [cur|] eqn:Hcur; [|done].
  simpl. intros [= <-].
  rewrite (get_node_put_node self
             (with_job_nodes
                (put_node (node_type, node_id)
                          (Node.update_resource_usage used_cpu used_memory cur)
                          (_job_nodes self)) self)
             (node_type, node_id) ref cur
             (Node.update_resource_usage used_cpu used_memory cur) eq_refl Hcur).
  destruct (decide ((node_type, node_id) = ref)) as [Href|Href].
  - rewrite decide_True by done. by rewrite <- Href, Hcur.
  - by rewrite decide_False.
Qed.

(** X8: [update_node_resource_usage] raises [KeyError] exactly for a node
    the index does not have; otherwise it replaces the used resources of
    that node and nothing else, and once it has recorded a memory above
    [MAX_MEMORY], an event that reports OOM for the node requests no
    relaunch and leaves its relaunch count as it was. *)
Theorem X8_memory_over_limit_blocks_oom_relaunch (self : NodeManager)
    (node_type : NodeType) (node_id used_cpu used_memory : Z) :
  (update_node_resource_usage self node_type node_id used_cpu used_memory = None
   ↔ get_node self (node_type, node_id) = None)
  ∧ ∀ self', update_node_resource_usage self node_type node_id used_cpu used_memory
             = Some self' →
      (∀ ref, get_node self' ref
              = if decide ((node_type, node_id) = ref)
                then Node.update_resource_usage used_cpu used_memory <$> get_node self ref
                else get_node self ref)
      ∧ ∀ event final effects,
          event_ref event = (node_type, node_id) →
          Node.exit_reason (node event) = OOM →
          MAX_MEMORY < used_memory →
          process_event self' event = Some (final, effects) →
          Forall is_call effects
          ∧ Node.relaunch_count <$> get_node final (node_type, node_id)
            = Node.relaunch_count <$> get_node self (node_type, node_id).
Proof.
  split.
  { unfold update_node_resource_usage.
    destruct (get_node self (node_type, node_id)); simpl; split; by intros. }
  intros self' Hupdate.
  pose proof (λ ref, get_node_update_resource_usage _ _ _ _ _ _ ref Hupdate) as Hget.
  split; [done|]. intros event final effects Href Hoom Hover Hevent.
  apply _process_event_get_node in Hevent as (cur & Hcur & -> & Hfinal & _).
  rewrite Href in Hcur, Hfinal.
  rewrite Hget, decide_True in Hcur by done.
  destruct (get_node self (node_type, node_id)) as [old|]; [|done].
  simpl in Hcur. injection Hcur as <-.
  assert (Hverdict : (step self' event
                        (Node.update_resource_usage used_cpu used_memory old)).2 = false).
  { destruct (step self' event _).2 eqn:Hv; [|done].
    apply node_step_verdict in Hv
      as (flow & _ & _ & _ & _ & _ & _ & Hmem & _).
    destruct (Hmem Hoom) as [Hle _]. simpl in Hle. lia. }
  split.
  - by apply (node_step_effects MAX_MEMORY get_node_state_flow).
  - rewrite Hfinal, decide_True by done. simpl. f_equal.
    pose proof (node_step_relaunch_count MAX_MEMORY get_node_state_flow self' event
                  (Node.update_resource_usage used_cpu used_memory old)) as Hcount.
    simpl in Hcount. rewrite Hverdict in Hcount. simpl in Hcount. lia.
Qed.

End Accounting.

(** ** Further properties of the reconciliation and of the monitor *)

Section Monitoring.

Variable MAX_MEMORY : Z.
Variable get_node_state_flow :
  NodeStatus → NodeEventType → NodeStatus → option NodeStateFlow.

Local Abbreviation process_event := (_process_event MAX_MEMORY get_node_state_flow).
Local Abbreviation watch := (watch_events MAX_MEMORY get_node_state_flow).
Local Abbreviation replay := (list_nodes_events MAX_MEMORY get_node_state_flow).
Local Abbreviation process_list_nodes :=
  (_process_list_nodes MAX_MEMORY get_node_state_flow).
Local Abbreviation monitor := (_monitor_nodes MAX_MEMORY get_node_state_flow).

Lemma _process_event_switches (self self' : NodeManager) (event : NodeEvent)
    (effects : list Effect) :
  process_event self event = Some (self', effects) →
  _stop_monitor self' = _stop_monitor self ∧ _relaunch_pod self' = _relaunch_pod self.
Proof.
  intros Hevent. apply _process_event_Some in Hevent as (cur & _ & Hstore).
  pose proof (f_equal fst Hstore) as Hself. simpl in Hself. by rewrite Hself.
Qed.

Lemma watch_events_switches (events : list NodeEvent) (self : NodeManager) :
  _stop_monitor (watch self events).1 = _stop_monitor self
  ∧ _relaunch_pod (watch self events).1 = _relaunch_pod self.
Proof.
  revert self. induction events as [|event rest IH]; intros self; simpl; [done|].
  destruct (process_event self event) as [[self' effects]|] eqn:Hevent; [|by apply IH].
  destruct (_process_event_switches _ _ _ _ Hevent) as [<- <-].
  specialize (IH self'). by destruct (watch self' rest).
Qed.

Lemma watch_events_same_nodes (events : list NodeEvent) (self : NodeManager)
    (ref : NodeRef) :
  is_Some (get_node (watch self events).1 ref) ↔ is_Some (get_node self ref).
Proof.
  revert self. induction events as [|event rest IH]; intros self; simpl; [done|].
  destruct (process_event self event) as [[self' effects]|] eqn:Hevent; [|by apply IH].
  rewrite <- (_process_event_same_nodes _ _ _ _ _ _ ref Hevent).
  specialize (IH self'). by destruct (watch self' rest).
Qed.

(** The first loop of the reconciliation is the watch loop on the mock
    events, and it only returns when it has found every listed node. *)
Lemma list_nodes_events_watch (nodes : list Node) (self final : NodeManager)
    (exist_pods exist_pods' : gmap NodeType (list Z)) (effects : list Effect) :
  replay self exist_pods nodes = Some (final, exist_pods', effects) →
  watch self (mock_event <$> nodes) = (final, effects)
  ∧ listed_in_index self nodes.
Proof.
  revert self exist_pods effects.
  induction nodes as [|node rest IH]; intros self exist_pods effects.
  - simpl. intros [= <- <- <-]. split; [done|]. by intros node Hin%elem_of_nil.
  - intros Hreplay. simpl in Hreplay.
    destruct (exist_pods !! Node.type node) as [ids|]; [|done].
    simpl in Hreplay. fold (mock_event node) in Hreplay.
    destruct (process_event self (mock_event node)) as [[self' now]|] eqn:Hevent;
      [|done].
    simpl in Hreplay.
    destruct (replay self' _ rest) as [[[final' pods'] later]|] eqn:Hrest; [|done].
    simpl in Hreplay. injection Hreplay as <- <- <-.
    destruct (IH _ _ _ Hrest) as [Hwatch Hknown]. split.
    + rewrite fmap_cons. cbn [watch_events]. by rewrite Hevent, Hwatch.
    + intros other [->|Hother]%elem_of_cons.
      * apply (_process_event_is_Some MAX_MEMORY get_node_state_flow self
                 (mock_event node)). by eauto.
      * apply (_process_event_same_nodes _ _ _ _ _ _ _ Hevent). by apply Hknown.
Qed.

(** The node at [ref] after the reconciliation. *)
Lemma _process_list_nodes_get_node (self self' : NodeManager) (nodes : list Node)
    (effects : list Effect) (ref : NodeRef) :
  process_list_nodes self nodes = Some (self', effects) →
  effects = (watch self (mock_event <$> nodes)).2
  ∧ get_node self' ref
    = (λ node,
         if bool_decide (Node.status node ≠ INITIAL)
            && negb (Node.is_released node)
            && bool_decide (ref.2 ∉ listed_ids nodes ref.1)
         then Node.set_is_released true node
         else node) <$> get_node (watch self (mock_event <$> nodes)).1 ref.
Proof.
  unfold _process_list_nodes. intros Hlist.
  destruct (replay self _ nodes) as [[[final pods] later]|] eqn:Hreplay; [|done].
  simpl in Hlist. injection Hlist as <- <-.
  destruct (list_nodes_events_watch _ _ _ _ _ _ Hreplay) as [Hwatch _].
  rewrite Hwatch. simpl. split; [done|].
  rewrite get_node_release_missing.
  destruct (get_node final ref) as [node|] eqn:Hnode; [|done]. simpl.
  assert (Hpods : pods !! ref.1 = Some (listed_ids nodes ref.1)).
  { rewrite (list_nodes_events_exist_pods _ _ _ _ _ _ _ _ ref.1 Hreplay), lookup_fmap.
    assert (Hold : is_Some (get_node self ref)).
    { apply (watch_events_same_nodes (mock_event <$> nodes)).
      rewrite Hwatch. simpl. by eauto. }
    destruct Hold as [old Hold]. unfold get_node in Hold.
    destruct (_job_nodes self !! ref.1); [done|discriminate]. }
  by rewrite Hpods.
Qed.

Lemma _process_list_nodes_is_Some (self : NodeManager) (nodes : list Node) :
  is_Some (process_list_nodes self nodes) ↔ listed_in_index self nodes.
Proof.
  split; [|by apply _process_list_nodes_returns].
  unfold _process_list_nodes. intros [[self' effects] Hlist].
  destruct (replay self _ nodes) as [[[final pods] later]|] eqn:Hreplay; [|done].
  by destruct (list_nodes_events_watch _ _ _ _ _ _ Hreplay) as [_ Hknown].
Qed.

(** X11: the reconciliation returns exactly when every listed pod is a
    node of the index; a listed pod of an unknown type or id makes it
    raise [KeyError]. *)
Theorem X11_reconciliation_returns_iff (self : NodeManager) (nodes : list Node) :
  is_Some (process_list_nodes self nodes)
  ↔ ∀ node, node ∈ nodes → is_Some (get_node self (Node.type node, Node.id node)).
Proof. apply _process_list_nodes_is_Some. Qed.

(** X12: a reconciliation that returns has the effects of the watch loop
    on the mock events of the listed nodes (a DELETED event for a node
    listed as DELETED, a MODIFIED event otherwise), and leaves every node
    as that loop does, released in addition when it is not listed, not
    INITIAL and not yet released. *)
Theorem X12_reconciliation_is_watch_then_release (self self' : NodeManager)
    (nodes : list Node) (effects : list Effect) :
  process_list_nodes self nodes = Some (self', effects) →
  effects = (watch self (mock_event <$> nodes)).2
  ∧ (∀ ref,
       get_node self' ref
       = (λ node,
            if bool_decide (Node.status node ≠ INITIAL)
               && negb (Node.is_released node)
               && bool_decide (ref.2 ∉ listed_ids nodes ref.1)
            then Node.set_is_released true node
            else node) <$> get_node (watch self (mock_event <$> nodes)).1 ref)
  ∧ Forall (λ event, event_type event = DELETED_EVENT
                     ↔ Node.status (node event) = DELETED) (mock_event <$> nodes).
Proof.
  intros Hlist. split; [|split].
  - by destruct (_process_list_nodes_get_node _ _ _ _ (PS, 0) Hlist).
  - intros ref. by destruct (_process_list_nodes_get_node _ _ _ _ ref Hlist).
  - apply Forall_fmap, Forall_forall. intros node _. unfold mock_event. simpl.
    case_bool_decide; split; by intros.
Qed.

(** X13: the reconciliation does not release a listed node, and it leaves
    a node that is not listed exactly as it was when the node is INITIAL or
    already released. *)
Theorem X13_reconciliation_spares_nodes (self self' : NodeManager) (nodes : list Node)
    (effects : list Effect) (ref : NodeRef) (old : Node) :
  process_list_nodes self nodes = Some (self', effects) →
  get_node self ref = Some old →
  (ref.2 ∈ listed_ids nodes ref.1 →
   ∃ new, get_node self' ref = Some new
          ∧ Node.is_released new = Node.is_released old
          ∧ Node.critical new = Node.critical old)
  ∧ (ref.2 ∉ listed_ids nodes ref.1 →
     Node.status old = INITIAL ∨ Node.is_released old = true →
     get_node self' ref = Some old).
Proof.
  intros Hlist Hold.
  destruct (_process_list_nodes_get_node _ _ _ _ ref Hlist) as [_ Hget].
  split.
  - intros Hlisted.
    destruct (watch_events_keeps_flags MAX_MEMORY get_node_state_flow
                (mock_event <$> nodes) self ref old Hold)
      as (mid & Hmid & Hrel & Hcrit & _).
    rewrite Hget, Hmid. simpl.
    rewrite (bool_decide_eq_false_2 (ref.2 ∉ _)), andb_false_r by auto.
    by exists mid.
  - intros Hunlisted Hspared.
    unfold _process_list_nodes in Hlist.
    destruct (replay self _ nodes) as [[[final pods] later]|] eqn:Hreplay; [|done].
    destruct (list_nodes_events_unlisted _ _ _ _ _ _ _ _ ref Hreplay Hunlisted)
      as [Hfinal _].
    destruct (list_nodes_events_watch _ _ _ _ _ _ Hreplay) as [Hwatch _].
    rewrite Hwatch in Hget. simpl in Hget. rewrite Hget, Hfinal, Hold. simpl.
    destruct Hspared as [->| ->]; simpl; [done|].
    by rewrite andb_false_r.
Qed.

(** *** The monitor thread *)

Lemma _process_list_nodes_switches (self self' : NodeManager) (nodes : list Node)
    (effects : list Effect) :
  process_list_nodes self nodes = Some (self', effects) →
  _stop_monitor self' = _stop_monitor self
  ∧ _relaunch_pod self' = _relaunch_pod self
  ∧ ∀ ref, is_Some (get_node self' ref) ↔ is_Some (get_node self ref).
Proof.
  intros Hlist.
  assert (Hnodes : ∀ ref, is_Some (get_node self' ref) ↔ is_Some (get_node self ref)).
  { intros ref. destruct (_process_list_nodes_get_node _ _ _ _ ref Hlist) as [_ ->].
    rewrite <- (watch_events_same_nodes (mock_event <$> nodes) self ref).
    by rewrite fmap_is_Some. }
  unfold _process_list_nodes in Hlist.
  destruct (replay self _ nodes) as [[[final pods] later]|] eqn:Hreplay; [|done].
  simpl in Hlist. injection Hlist as <- <-.
  destruct (list_nodes_events_watch _ _ _ _ _ _ Hreplay) as [Hwatch _].
  destruct (watch_events_switches (mock_event <$> nodes) self) as [Hstop Hpod].
  rewrite Hwatch in Hstop, Hpod. simpl in Hstop, Hpod.
  split; [done|]. split; [done|]. exact Hnodes.
Qed.

Lemma listed_in_index_same_nodes (self self' : NodeManager) (nodes : list Node) :
  (∀ ref, is_Some (get_node self' ref) ↔ is_Some (get_node self ref)) →
  listed_in_index self' nodes ↔ listed_in_index self nodes.
Proof.
  intros Hsame. unfold listed_in_index.
  split; intros Hknown node Hnode; apply Hsame; by apply Hknown.
Qed.

(** X14: once [stop] has been called, the monitor reconciles the next
    list and leaves its loop: it processes no watch event and reads no
    further list, and the reconciliation requests no relaunch.  (A listed
    pod that the index does not have ends the thread with [KeyError].) *)
Theorem X14_monitor_after_stop (self : NodeManager) (nodes : list Node)
    (events : list NodeEvent) (later : list (list Node * list NodeEvent)) :
  match process_list_nodes (stop self) nodes with
  | Some (listed, effects) =>
      monitor (stop self) ((nodes, events) :: later) = Stopped listed effects
      ∧ Forall is_call effects
  | None => monitor (stop self) ((nodes, events) :: later) = Raised []
  end.
Proof.
  cbn [_monitor_nodes].
  destruct (process_list_nodes (stop self) nodes) as [[listed effects]|] eqn:Hlist;
    [|done].
  destruct (_process_list_nodes_switches _ _ _ _ Hlist) as (-> & _ & _). simpl.
  split; [done|].
  destruct (_process_list_nodes_get_node _ _ _ _ (PS, 0) Hlist) as [-> _].
  by apply (watch_events_relaunch_disabled MAX_MEMORY get_node_state_flow
              (mock_event <$> nodes) (stop self) (PS, 0) (sample_node PS 0 "" INITIAL)).
Qed.

(** X15: while [stop] has not been called the monitor never leaves its
    loop by itself.  It goes on to the next list when every pod of every
    list it was given is a node of the index, whatever the watch streams
    deliver, and it is ended by a [KeyError] only when some list holds a
    pod that the index does not have. *)
Theorem X15_monitor_keeps_running (self : NodeManager)
    (rounds : list (list Node * list NodeEvent)) :
  _stop_monitor self = false →
  match monitor self rounds with
  | Stopped _ _ => False
  | Raised _ => Exists (λ round, ¬ listed_in_index self round.1) rounds
  | Listing final _ =>
      Forall (λ round, listed_in_index self round.1) rounds
      ∧ _stop_monitor final = false
  end.
Proof.
  revert self. induction rounds as [|[nodes events] later IH]; intros self Hrunning.
  - simpl. by split.
  - cbn [_monitor_nodes].
    destruct (process_list_nodes self nodes) as [[listed effects]|] eqn:Hlist.
    + destruct (_process_list_nodes_switches _ _ _ _ Hlist) as (Hstop & _ & Hsame).
      rewrite Hstop, Hrunning.
      assert (Hlisted : listed_in_index self nodes).
      { apply _process_list_nodes_is_Some. by eauto. }
      destruct (watch_events_switches events listed) as [Hstop' _].
      assert (Hsame' : ∀ ref, is_Some (get_node (watch listed events).1 ref)
                              ↔ is_Some (get_node self ref)).
      { intros ref. by rewrite watch_events_same_nodes. }
      destruct (watch listed events) as [watched processed]. simpl in *.
      specialize (IH watched ltac:(congruence)).
      destruct (monitor watched later) as [| |final more]; simpl.
      * done.
      * apply Exists_cons_tl. eapply Exists_impl; [exact IH|].
        intros round Hround. simpl in Hround.
        by rewrite <- (listed_in_index_same_nodes self watched).
      * destruct IH as [Hall Hfinal]. split; [|done].
        constructor; [done|]. eapply Forall_impl; [exact Hall|].
        intros round Hround. simpl in Hround.
        by rewrite <- (listed_in_index_same_nodes self watched).
    + simpl. apply Exists_cons_hd. simpl. intros Hlisted.
      apply _process_list_nodes_is_Some in Hlisted as [result Hresult]. congruence.
Qed.

End Monitoring.

(** ** Further properties of [stop], the removal and the completion test *)

(** X16: [stop] is idempotent: a second call changes nothing. *)
Theorem X16_stop_idempotent (self : NodeManager) :
  stop (stop self) = stop self.
Proof.
  unfold stop. simpl. f_equal.
  apply map_eq. intros node_type. rewrite !lookup_fmap.
  destruct (_job_nodes self !! node_type) as [group|]; [|done]. simpl. f_equal.
  apply map_eq. intros node_id. rewrite !lookup_fmap.
  by destruct (group !! node_id).
Qed.

Lemma is_removable_remove_node (node : Node) : is_removable (remove_node node) = false.
Proof.
  unfold remove_node. destruct (is_removable node) eqn:Hremovable; [|done].
  reflexivity.
Qed.

(** A removal that finds no training node to remove changes no node and
    fills no plan. *)
Lemma remove_training_nodes_nothing (self self' : NodeManager) (plan : ResourcePlan) :
  remove_training_nodes_loop self = Some (self', plan) →
  (∀ ref node, ref.1 ∈ [WORKER; PS] → get_node self ref = Some node →
               is_removable node = false) →
  removed_nodes plan = [] ∧ ∀ ref, get_node self' ref = get_node self ref.
Proof.
  intros Hloop Hnone. split.
  - unfold remove_training_nodes_loop in Hloop.
    destruct (_job_nodes self !! WORKER) as [workers|] eqn:Hworkers; [|done].
    destruct (_job_nodes self !! PS) as [servers|] eqn:Hservers; [|done].
    simpl in Hloop. injection Hloop as _ <-. simpl.
    apply elem_of_nil_inv. intros name Hname.
    apply elem_of_app in Hname as [Hname|Hname];
      apply elem_of_removed_names in Hname as (node_id & node & Hnode & Hremovable & _).
    + rewrite (Hnone (WORKER, node_id) node) in Hremovable; [done|by left|].
      unfold get_node. simpl. by rewrite Hworkers.
    + rewrite (Hnone (PS, node_id) node) in Hremovable; [done|right; by left|].
      unfold get_node. simpl. by rewrite Hservers.
  - intros ref. rewrite (get_node_removed _ _ _ ref Hloop).
    destruct (get_node self ref) as [node|] eqn:Hnode; [|done]. simpl.
    case_bool_decide as Htype; [|done].
    unfold remove_node. by rewrite (Hnone ref node Htype Hnode).
Qed.

(** X17: after [stop], [remove_training_nodes] removes nothing: every
    node is released already, so no node changes and the plan stays empty. *)
Theorem X17_nothing_to_remove_after_stop (self self' : NodeManager)
    (plan : ResourcePlan) :
  remove_training_nodes_loop (stop self) = Some (self', plan) →
  removed_nodes plan = [] ∧ ∀ ref, get_node self' ref = get_node (stop self) ref.
Proof.
  intros Hloop. apply (remove_training_nodes_nothing _ _ _ Hloop).
  intros ref node _. rewrite get_node_stop.
  destruct (get_node self ref) as [old|]; [|done]. simpl. intros [= <-].
  unfold is_removable. simpl. by rewrite andb_false_r.
Qed.

(** X18: [remove_training_nodes] raises [KeyError] exactly when the index
    lacks the WORKER or the PS group, and it is idempotent: run again on
    its own result it returns, changes no node and fills no plan. *)
Theorem X18_remove_training_nodes_idempotent (self : NodeManager) :
  (remove_training_nodes self = None
   ↔ _job_nodes self !! WORKER = None ∨ _job_nodes self !! PS = None)
  ∧ ∀ once plan,
      remove_training_nodes_loop self = Some (once, plan) →
      ∃ twice again,
        remove_training_nodes_loop once = Some (twice, again)
        ∧ removed_nodes again = []
        ∧ ∀ ref, get_node twice ref = get_node once ref.
Proof.
  split.
  - unfold remove_training_nodes, remove_training_nodes_loop.
    destruct (_job_nodes self !! WORKER), (_job_nodes self !! PS); simpl;
      split; try done; try (by intros [?|?]); by auto.
  - intros once plan Hloop.
    assert (Hsecond : is_Some (remove_training_nodes_loop once)).
    { unfold remove_training_nodes_loop in *.
      destruct (_job_nodes self !! WORKER) as [workers|]; [|done].
      destruct (_job_nodes self !! PS) as [servers|]; [|done].
      simpl in Hloop. injection Hloop as <- _. simpl.
      rewrite (lookup_insert_ne _ PS WORKER) by done.
      rewrite (lookup_insert_eq _ WORKER). simpl.
      rewrite (lookup_insert_eq _ PS). simpl. by eauto. }
    destruct Hsecond as [[twice again] Hsecond]. exists twice, again.
    split; [done|].
    apply (remove_training_nodes_nothing _ _ _ Hsecond).
    intros ref node Htype. rewrite (get_node_removed _ _ _ ref Hloop).
    rewrite bool_decide_eq_true_2 by done.
    destruct (get_node self ref) as [old|]; [|done]. simpl. intros [= <-].
    apply is_removable_remove_node.
Qed.

(** X19: a training node that [remove_training_nodes] has removed stays
    removed under whatever events follow: it remains released,
    non-critical and not relaunchable, no relaunch is requested for it and
    its relaunch count does not move. *)
Theorem X19_removed_node_never_relaunched (MAX_MEMORY : Z)
    (get_node_state_flow : NodeStatus → NodeEventType → NodeStatus → option NodeStateFlow)
    (self self' : NodeManager) (plan : ResourcePlan) (ref : NodeRef) (old : Node)
    (events : list NodeEvent) :
  remove_training_nodes_loop self = Some (self', plan) →
  get_node self ref = Some old →
  ref.1 ∈ [WORKER; PS] →
  is_removable old = true →
  ∃ new,
    get_node (watch_events MAX_MEMORY get_node_state_flow self' events).1 ref = Some new
    ∧ Node.is_released new = true
    ∧ Node.critical new = false
    ∧ Node.relaunchable new = false
    ∧ Node.relaunch_count new = Node.relaunch_count old
    ∧ relaunch_requests ref
        (watch_events MAX_MEMORY get_node_state_flow self' events).2 = 0.
Proof.
  intros Hloop Hold Htype Hremovable.
  pose proof (get_node_removed _ _ _ ref Hloop) as Hremoved.
  rewrite bool_decide_eq_true_2, Hold in Hremoved by done. simpl in Hremoved.
  unfold remove_node in Hremoved. rewrite Hremovable in Hremoved.
  destruct (watch_events_not_relaunchable MAX_MEMORY get_node_state_flow self' events
              ref _ Hremoved eq_refl) as (new & Hnew & Hoff & Hcount & Hreq).
  destruct (watch_events_keeps_flags MAX_MEMORY get_node_state_flow events self'
              ref _ Hremoved) as (new' & Hnew' & Hrel & Hcrit & _).
  rewrite Hnew in Hnew'. injection Hnew' as <-.
  exists new. by repeat split.
Qed.

(** X20: [all_critical_node_completed] answers false exactly when some
    node of the index is critical and INITIAL, PENDING or RUNNING; the
    flags released and relaunchable play no part. *)
Theorem X20_completion_blocked_iff (self : NodeManager) :
  all_critical_node_completed self = false
  ↔ ∃ ref node, get_node self ref = Some node
                ∧ Node.critical node = true
                ∧ Node.status node ∈ [INITIAL; PENDING; RUNNING].
Proof.
  split.
  - unfold all_critical_node_completed, alive_critical_nodes.
    rewrite bool_decide_eq_false. intros Halive.
    destruct (_ ≫= _) as [|node_id rest] eqn:Hlist; [done|].
    assert (Hin : node_id ∈ node_id :: rest) by left.
    rewrite <- Hlist in Hin.
    apply list_elem_of_bind in Hin as ([node_type group] & Hin & Hgroup).
    apply list_elem_of_bind in Hin as ([node_id' node] & Hin & Hnode).
    apply elem_of_map_to_list in Hgroup, Hnode. simpl in *.
    destruct (is_alive_critical node) eqn:Hnode_alive; [|by apply elem_of_nil in Hin].
    unfold is_alive_critical in Hnode_alive.
    apply andb_true_iff in Hnode_alive as [Hcritical Hstatus].
    apply bool_decide_eq_true in Hstatus.
    exists (node_type, node_id'), node. split; [|done].
    unfold get_node. simpl. by rewrite Hgroup.
  - intros (ref & node & Hnode & Hcritical & Hstatus).
    destruct (all_critical_node_completed self) eqn:Hcompleted; [|done].
    pose proof (proj1 (all_critical_node_completed_iff self) Hcompleted ref node Hnode)
      as Hdead.
    unfold is_alive_critical in Hdead.
    rewrite Hcritical, bool_decide_eq_true_2 in Hdead by done. done.
Qed.

(** ** The construction of the manager *)

(** X21: the relaunch budgets of a manager made by [create_node_manager]
    are at most 5; the budget for worker failures is the requested one,
    clamped, under the strategies PARAMETER_SERVER and CUSTOM and zero
    under any other; the manager waits for pending relaunches exactly
    under CUSTOM; and the evaluators get the priority low when it was asked
    for and high otherwise. *)
Theorem X21_create_node_manager_settings (args : JobArgs) :
  let settings := create_node_manager args in
  _relaunch_on_worker_failure settings <= 5
  ∧ _ps_relaunch_max_num settings <= 5
  ∧ _relaunch_on_worker_failure settings
    = (if bool_decide (distribution_strategy args ∈ [PARAMETER_SERVER; CUSTOM])
       then Z.min (relaunch_on_worker_failure args) 5 else 0)
  ∧ _ps_relaunch_max_num settings = Z.min (ps_relaunch_max_num args) 5
  ∧ wait_pending_relaunch settings = bool_decide (distribution_strategy args = CUSTOM)
  ∧ (group_type <$> _job_resource settings) = [WORKER; PS; EVALUATOR; CHIEF]
  ∧ (∀ group, group ∈ _job_resource settings → group_type group = EVALUATOR →
       group_priority group
       = if bool_decide (evaluator_pod_priority args = "low") then "low" else "high").
Proof.
  unfold create_node_manager, NodeManager_init, _MAX_POD_RELAUNCH_COUNT. simpl.
  repeat split.
  - destruct (distribution_strategy args); simpl; lia.
  - lia.
  - by destruct (distribution_strategy args).
  - intros group Hgroup Htype.
    repeat (apply elem_of_cons in Hgroup as [->|Hgroup]; try discriminate).
    + simpl. by case_bool_decide as Hlow; [rewrite Hlow|].
    + by apply elem_of_nil in Hgroup.
Qed.

(** ** The further properties on concrete jobs *)

(** X1 on the worker that is reported killed. *)
Lemma X1_witness : Forall (λ e, effect_ref e = (WORKER, 0)) killed_once.2.
Proof.
  destruct (X1_event_touches_one_node sample_max_memory notable_state_flow
              worker_job killed_once.1 worker_killed killed_once.2)
    as (_ & _ & _ & _ & _ & _ & Heffects).
  - vm_compute. reflexivity.
  - exact Heffects.
Defined.

(** X3 on the same event. *)
Lemma X3_witness :
  ∃ new, get_node killed_once.1 (WORKER, 0) = Some new ∧ Node.status new = FAILED.
Proof.
  destruct (X3_event_refreshes_node sample_max_memory notable_state_flow
              worker_job killed_once.1 worker_killed killed_once.2)
    as (old & new & _ & Hnew & Hstatus & _).
  - vm_compute. reflexivity.
  - exists new. split; [exact Hnew|exact Hstatus].
Defined.

(** X4 on the worker that is killed, reported running and killed again. *)
Lemma X4_witness :
  ∃ new,
    get_node (watch_events sample_max_memory notable_state_flow worker_job
                           [worker_killed; worker_running; worker_killed]).1
             (WORKER, 0) = Some new
    ∧ Node.relaunch_count new
      = 0 + relaunch_requests (WORKER, 0)
              (watch_events sample_max_memory notable_state_flow worker_job
                            [worker_killed; worker_running; worker_killed]).2.
Proof.
  apply (X4_relaunch_count_counts_requests sample_max_memory notable_state_flow
           worker_job [worker_killed; worker_running; worker_killed] (WORKER, 0)
           (sample_node WORKER 0 "worker-0" RUNNING)).
  vm_compute. reflexivity.
Defined.

(** X6 on a worker that is not relaunchable and is reported killed. *)
Lemma X6_witness :
  ∃ new,
    get_node (watch_events sample_max_memory notable_state_flow frozen_job
                           [worker_killed]).1 (WORKER, 0) = Some new
    ∧ Node.relaunchable new = false
    ∧ Node.relaunch_count new = 0
    ∧ relaunch_requests (WORKER, 0)
        (watch_events sample_max_memory notable_state_flow frozen_job
                      [worker_killed]).2 = 0.
Proof.
  apply (X6_not_relaunchable_never_relaunched sample_max_memory notable_state_flow
           frozen_job [worker_killed] (WORKER, 0)
           (Node.set_relaunchable false (sample_node WORKER 0 "worker-0" RUNNING))).
  - vm_compute. reflexivity.
  - reflexivity.
Defined.

(** X7 on the worker that is reported killed: one relaunch is requested. *)
Lemma X7_witness :
  all_relaunch_requests killed_once.2 = 0 ∨ all_relaunch_requests killed_once.2 = 1.
Proof.
  destruct (X7_relaunch_requested_iff sample_max_memory notable_state_flow
              worker_job killed_once.1 worker_killed killed_once.2
              (sample_node WORKER 0 "worker-0" RUNNING)) as [Hcount _].
  - vm_compute. reflexivity.
  - vm_compute. reflexivity.
  - exact Hcount.
Defined.

(** X9 on the same worker. *)
Lemma X9_witness :
  ∃ new,
    get_node (watch_events sample_max_memory notable_state_flow worker_job
                           [worker_killed]).1 (WORKER, 0) = Some new
    ∧ (Node.is_recovered_oom (sample_node WORKER 0 "worker-0" RUNNING) = true →
       Node.is_recovered_oom new = true)
    ∧ (Node.is_recovered_oom new = true →
       Node.is_recovered_oom (sample_node WORKER 0 "worker-0" RUNNING) = true
       ∨ 0 < relaunch_requests (WORKER, 0)
               (watch_events sample_max_memory notable_state_flow worker_job
                             [worker_killed]).2).
Proof.
  apply (X9_recovered_oom_mark sample_max_memory notable_state_flow worker_job
           [worker_killed] (WORKER, 0) (sample_node WORKER 0 "worker-0" RUNNING)).
  vm_compute. reflexivity.
Defined.

(** X10 on the same event. *)
Lemma X10_witness :
  ∃ calls requests, killed_once.2 = calls ++ requests
                    ∧ (requests = [] ∨ ∃ new, requests = [RelaunchPod (WORKER, 0) new]).
Proof.
  destruct (X10_effects_of_an_event sample_max_memory notable_state_flow
              worker_job killed_once.1 worker_killed killed_once.2)
    as (calls & requests & new & Heffects & _ & _ & Hrequests).
  - vm_compute. reflexivity.
  - exists calls, requests. split; [exact Heffects|].
    destruct Hrequests as [Hnone|Hone]; [left; exact Hnone|right].
    exists new. exact Hone.
Defined.

(** X12 and X13 on the training job whose parameter server is missing
    from the list. *)
Lemma X12_witness :
  reconciled.2
  = (watch_events sample_max_memory notable_state_flow training_job
                  (mock_event <$> snapshot_without_ps)).2.
Proof.
  destruct (X12_reconciliation_is_watch_then_release sample_max_memory
              notable_state_flow training_job reconciled.1 snapshot_without_ps
              reconciled.2) as [Heffects _].
  - vm_compute. reflexivity.
  - exact Heffects.
Defined.

Lemma X13_witness :
  ∃ new, get_node reconciled.1 (WORKER, 0) = Some new
         ∧ Node.is_released new = false
         ∧ Node.critical new = true.
Proof.
  destruct (X13_reconciliation_spares_nodes sample_max_memory notable_state_flow
              training_job reconciled.1 snapshot_without_ps reconciled.2
              (WORKER, 0) (sample_node WORKER 0 "worker-0" RUNNING)) as [Hlisted _].
  - vm_compute. reflexivity.
  - vm_compute. reflexivity.
  - apply Hlisted. vm_compute. left.
Defined.

(** X15 on one round of the monitor. *)
Lemma X15_witness :
  match _monitor_nodes sample_max_memory notable_state_flow worker_job one_round with
  | Stopped _ _ => False
  | Raised _ => Exists (λ round, ¬ listed_in_index worker_job round.1) one_round
  | Listing final _ =>
      Forall (λ round, listed_in_index worker_job round.1) one_round
      ∧ _stop_monitor final = false
  end.
Proof.
  apply (X15_monitor_keeps_running sample_max_memory notable_state_flow
           worker_job one_round).
  reflexivity.
Defined.

(** X17 and X19 on the training job. *)
Lemma X17_witness :
  removed_nodes removed_after_stop.2 = []
  ∧ ∀ ref, get_node removed_after_stop.1 ref = get_node (stop training_job) ref.
Proof.
  apply (X17_nothing_to_remove_after_stop training_job removed_after_stop.1
           removed_after_stop.2).
  vm_compute. reflexivity.
Defined.

Lemma X19_witness :
  ∃ new,
    get_node (watch_events sample_max_memory notable_state_flow removed.1
                           [worker_killed]).1 (WORKER, 0) = Some new
    ∧ Node.is_released new = true
    ∧ Node.critical new = false
    ∧ Node.relaunchable new = false
    ∧ Node.relaunch_count new = 0
    ∧ relaunch_requests (WORKER, 0)
        (watch_events sample_max_memory notable_state_flow removed.1
                      [worker_killed]).2 = 0.
Proof.
  apply (X19_removed_node_never_relaunched sample_max_memory notable_state_flow
           training_job removed.1 removed.2 (WORKER, 0)
           (sample_node WORKER 0 "worker-0" RUNNING) [worker_killed]).
  - vm_compute. reflexivity.
  - vm_compute. reflexivity.
  - left.
  - reflexivity.
Defined.

(** X8 on scenario 2 of the specification. *)
Lemma X8_witness :
  Forall is_call oom_over_limit.2
  ∧ Node.relaunch_count <$> get_node oom_over_limit.1 (WORKER, 0)
    = Node.relaunch_count <$> get_node worker_job (WORKER, 0).
Proof.
  destruct (X8_memory_over_limit_blocks_oom_relaunch sample_max_memory
              notable_state_flow worker_job WORKER 0 1 70000) as [_ Hupdated].
  destruct (Hupdated over_limit) as [_ Hblocked].
  - vm_compute. reflexivity.
  - apply (Hblocked worker_oom oom_over_limit.1 oom_over_limit.2).
    + reflexivity.
    + reflexivity.
    + reflexivity.
    + vm_compute. reflexivity.
Defined.
